(** * Utilities/JIT.h: code emission helpers and build sessions

    A shallow embedding of the helpers of [Utilities/JIT.h]: the code-gen
    idioms [build_transaction_enter], [build_swap_rdx_with] and
    [build_get_tsc], the build sessions [build_function_asm] and
    [built_function], and the memory contract of [jit_runtime].

    The instruction encoder ([asmjit::X86Assembler]) is an external
    library; it is represented by the stream of items a client emits,
    together with a small operational semantics of the few x86-64
    instructions that the helpers use. *)

From Stdlib Require Import ZArith NArith List Bool Lia String.
Import ListNotations.

Local Open Scope Z_scope.

(* ================================================================== *)
(** ** Register operands *)

(** The sixteen general-purpose registers, in encoding order. *)
Inductive RegId : Type :=
| RAX | RCX | RDX | RBX | RSP | RBP | RSI | RDI
| R8 | R9 | R10 | R11 | R12 | R13 | R14 | R15.

Definition RegId_eqb (a b : RegId) : bool :=
  match a, b with
  | RAX, RAX | RCX, RCX | RDX, RDX | RBX, RBX
  | RSP, RSP | RBP, RBP | RSI, RSI | RDI, RDI
  | R8, R8 | R9, R9 | R10, R10 | R11, R11
  | R12, R12 | R13, R13 | R14, R14 | R15, R15 => true
  | _, _ => false
  end.

(** Operand width: [gpd] is a 32-bit view, [gpq] the full 64-bit register. *)
Inductive RegSize : Type := gpd | gpq.

Definition RegSize_eqb (a b : RegSize) : bool :=
  match a, b with
  | gpd, gpd | gpq, gpq => true
  | _, _ => false
  end.

Definition bits (s : RegSize) : Z :=
  match s with gpd => 32 | gpq => 64 end.

(** [asmjit::X86Gp]: a register operand is a register id and a width. *)
Record X86Gp : Type := mkGp { id : RegId; size : RegSize }.

Definition X86Gp_eqb (a b : X86Gp) : bool :=
  RegId_eqb (id a) (id b) && RegSize_eqb (size a) (size b).

Definition r32 (g : X86Gp) : X86Gp := mkGp (id g) gpd.
Definition r64 (g : X86Gp) : X86Gp := mkGp (id g) gpq.

(** The register constants of namespace [asmjit::x86] used in the header. *)
Module x86.
Definition rax := mkGp RAX gpq.
Definition rcx := mkGp RCX gpq.
Definition rdx := mkGp RDX gpq.
Definition rsi := mkGp RSI gpq.
Definition rdi := mkGp RDI gpq.
Definition r8  := mkGp R8 gpq.
Definition r9  := mkGp R9 gpq.
Definition r10 := mkGp R10 gpq.
Definition eax := mkGp RAX gpd.
End x86.

(** [build_get_tsc] receives its destination as [const X86Gp&] and compares
    the ADDRESS of the argument with the addresses of the constants
    [x86::rax] and [x86::rdx].  A reference therefore either designates one
    of the library's constant objects, or some other object (a local, an
    element of the [args] array) that merely holds a register operand. *)
Inductive GpRef : Type :=
| Const (g : X86Gp)    (* a reference to the constant object x86::g itself *)
| Object (g : X86Gp).  (* a reference to another object whose value is g *)

Definition deref (r : GpRef) : X86Gp :=
  match r with Const g => g | Object g => g end.

(** [&a == &b] *)
Definition same_object (a b : GpRef) : bool :=
  match a, b with
  | Const g, Const h => X86Gp_eqb g h
  | _, _ => false
  end.

(* ================================================================== *)
(** ** The assembler: emitted items *)

Definition Label : Type := nat.
Definition Error : Type := N.
Definition kErrorOk : Error := 0%N.

Inductive AlignMode : Type := kAlignCode | kAlignData | kAlignZero.

(** The mnemonics that the helpers of this header emit, plus [xbegin], which
    the transactional helper leaves to its caller. *)
Inductive Inst : Type :=
| jmp (l : Label)
| jz (l : Label)
| test (a b : X86Gp)
| xchg (a b : X86Gp)
| rdtsc
| shl (a : X86Gp) (n : Z)
| or_ (a b : X86Gp)
| mov (a b : X86Gp)
| xbegin (l : Label).

Inductive Item : Type :=
| Emit (i : Inst)
| Bind (l : Label)
| Align (mode : AlignMode) (n : N).

(** Modelled from the spec: the encoder ([asmjit::X86Assembler] over its
    [CodeHolder]) is an external library; section 6 describes it as an
    instruction builder with label creation and binding, mnemonics and a
    last error.  It is kept as the stream of emitted items, the number of
    labels created so far and the last error. *)
Record X86Assembler : Type := mkAsm {
  code : list Item;
  labels : nat;
  lastError : Error
}.

(** Appending one item.  Only the stream is modelled: the encoder's own
    validation of operands is not, so [lastError] records what a builder
    sets, never an operand error, and nothing below is concluded from it
    about emitted instructions. *)
Definition emit (it : Item) (c : X86Assembler) : X86Assembler :=
  mkAsm (code c ++ [it]) (labels c) (lastError c).

Definition newLabel (c : X86Assembler) : Label * X86Assembler :=
  (labels c, mkAsm (code c) (S (labels c)) (lastError c)).

Definition bind (l : Label) (c : X86Assembler) : X86Assembler := emit (Bind l) c.
Definition align (mode : AlignMode) (n : N) (c : X86Assembler) : X86Assembler :=
  emit (Align mode n) c.
Definition inst (i : Inst) (c : X86Assembler) : X86Assembler := emit (Emit i) c.

(** The items appended to [c0] on the way to [c1]. *)
Definition emitted (c0 c1 : X86Assembler) : list Item :=
  skipn (List.length (code c0)) (code c1).

(* ================================================================== *)
(** ** Machine state and instruction semantics *)

Record Machine : Type := mkMachine {
  gpr : RegId -> Z;   (* 64-bit register contents *)
  zf : bool;          (* zero flag *)
  tsc : Z             (* the value the cycle counter reads *)
}.

Definition set_gpr (r : RegId) (v : Z) (f : RegId -> Z) : RegId -> Z :=
  fun r' => if RegId_eqb r' r then v else f r'.

Definition read_gp (m : Machine) (g : X86Gp) : Z :=
  match size g with
  | gpq => gpr m (id g)
  | gpd => gpr m (id g) mod 2 ^ 32
  end.

(** A 32-bit write zero-extends into the full register. *)
Definition write_gp (g : X86Gp) (v : Z) (m : Machine) : Machine :=
  mkMachine (set_gpr (id g) (v mod 2 ^ bits (size g)) (gpr m)) (zf m) (tsc m).

Definition set_zf (b : bool) (m : Machine) : Machine :=
  mkMachine (gpr m) b (tsc m).

(** The architectural effect of the data instructions in 64-bit mode:
    [rdtsc] loads the low half of the counter into [rax] and the high half
    into [rdx], clearing their upper halves; a shift count is taken modulo
    the operand width and a zero count leaves the flags alone.  [None]:
    operand widths do not match, or the instruction transfers control (see
    [step]). *)
Definition exec_inst (i : Inst) (m : Machine) : option Machine :=
  match i with
  | xchg a b =>
      if RegSize_eqb (size a) (size b) then
        let va := read_gp m a in
        let vb := read_gp m b in
        Some (write_gp b va (write_gp a vb m))
      else None
  | rdtsc =>
      Some (write_gp x86.rdx (Z.shiftr (tsc m) 32 mod 2 ^ 32)
             (write_gp x86.rax (tsc m mod 2 ^ 32) m))
  | shl a n =>
      let cnt := n mod bits (size a) in
      let v := Z.shiftl (read_gp m a) cnt mod 2 ^ bits (size a) in
      let m' := write_gp a v m in
      Some (if cnt =? 0 then m' else set_zf (v =? 0) m')
  | or_ a b =>
      if RegSize_eqb (size a) (size b) then
        let v := Z.lor (read_gp m a) (read_gp m b) in
        Some (set_zf (v =? 0) (write_gp a v m))
      else None
  | mov a b =>
      if RegSize_eqb (size a) (size b) then Some (write_gp a (read_gp m b) m)
      else None
  | test a b =>
      if RegSize_eqb (size a) (size b) then
        Some (set_zf (Z.land (read_gp m a) (read_gp m b) =? 0) m)
      else None
  | jmp _ | jz _ | xbegin _ => None
  end.

(** Straight-line execution of an emitted fragment; label bindings and
    alignment padding fall through. *)
Fixpoint exec_straight (l : list Item) (m : Machine) : option Machine :=
  match l with
  | [] => Some m
  | Emit i :: l' =>
      match exec_inst i m with
      | Some m' => exec_straight l' m'
      | None => None
      end
  | Bind _ :: l' | Align _ _ :: l' => exec_straight l' m
  end.

(* ================================================================== *)
(** ** Code-gen idioms (namespace asmjit) *)

(** A C++ callable that emits through the assembler it captured by
    reference: it transforms the assembler and its own captured state. *)
Definition Callback (S : Type) : Type := X86Assembler -> S -> X86Assembler * S.

(** [build_transaction_enter(c, fallback, func)] *)
Definition build_transaction_enter {S : Type} (c : X86Assembler)
    (fallback : Label) (func : Callback S) (s : S)
  : Label * X86Assembler * S :=
  let '(fall, c) := newLabel c in
  let '(begin, c) := newLabel c in
  let c := inst (jmp begin) c in
  let c := bind fall c in
  (* Don't repeat on zero status (may indicate syscall or interrupt) *)
  let c := inst (test x86.eax x86.eax) c in
  let c := inst (jz fallback) c in
  (* First invoked after failure *)
  let '(c, s) := func c s in
  let c := align kAlignCode 16 c in
  let c := bind begin c in
  (fall, c, s).

(** Replace element [i] of an argument array. *)
Fixpoint set_arg (i : nat) (g : X86Gp) (args : list X86Gp) : list X86Gp :=
  match args, i with
  | [], _ => []
  | _ :: t, O => g :: t
  | h :: t, S i' => h :: set_arg i' g t
  end.

(** [build_swap_rdx_with(c, args, with)]; [WIN32] is the [_WIN32] macro. *)
Definition build_swap_rdx_with (WIN32 : bool) (c : X86Assembler)
    (args : list X86Gp) (with_ : X86Gp) : X86Assembler * list X86Gp :=
  if WIN32 then
    (inst (xchg (nth 1 args with_) with_) c, set_arg 1 with_ args)
  else
    (inst (xchg (nth 2 args with_) with_) c, set_arg 2 with_ args).

(** [build_get_tsc(c, to)] *)
Definition build_get_tsc (c : X86Assembler) (to : GpRef) : X86Assembler :=
  let c :=
    if negb (same_object to (Const x86.rax)) && negb (same_object to (Const x86.rdx))
    then (* Swap to save its contents *)
         inst (xchg x86.rax (deref to)) c
    else c in
  let c := inst rdtsc c in
  let c := inst (shl x86.rdx 32) c in
  if same_object to (Const x86.rax) then
    inst (or_ x86.rax x86.rdx) c
  else if same_object to (Const x86.rdx) then
    inst (or_ x86.rdx x86.rax) c
  else
    (* Swap back *)
    let c := inst (xchg x86.rax (deref to)) c in
    let c := inst (mov (r32 (deref to)) (r32 (deref to))) c in
    inst (or_ (r64 (deref to)) x86.rdx) c.

(** Every register of a machine state holds a 64-bit value. *)
Definition regs_64bit (m : Machine) : Prop :=
  forall r, 0 <= gpr m r < 2 ^ 64.

(** The property as the specification words it: the destination receives
    the counter and every other general-purpose register is preserved. *)
Definition get_tsc_preserves_all_others (c : X86Assembler) (to : GpRef)
    (m : Machine) : Prop :=
  exists m',
    exec_straight (emitted c (build_get_tsc c to)) m = Some m' /\
    gpr m' (id (deref to)) = tsc m /\
    forall r, r <> id (deref to) -> gpr m' r = gpr m r.

(** A fresh assembler and a sample machine state for concrete runs. *)
Definition c0 : X86Assembler := mkAsm [] 0 kErrorOk.

Definition m0 : Machine :=
  mkMachine
    (fun r => match r with RAX => 1 | RDX => 2 | R10 => 3 | _ => 0 end)
    false
    (5 * 2 ^ 32 + 9).

Definition m_zero : Machine := mkMachine (fun _ => 0) false 0.

(* ================================================================== *)
(** ** Control flow over an emitted program *)

(** Position of the item that binds label [l]. *)
Fixpoint label_pos (prog : list Item) (l : Label) : option nat :=
  match prog with
  | [] => None
  | Bind l' :: rest =>
      if Nat.eqb l' l then Some O else option_map S (label_pos rest l)
  | _ :: rest => option_map S (label_pos rest l)
  end.

Definition goto (prog : list Item) (l : Label) (m : Machine)
  : option (nat * Machine) :=
  match label_pos prog l with
  | Some p => Some (p, m)
  | None => None
  end.

(** One step of the machine at program position [pc].  A transaction is
    not modelled, so [xbegin] does not step. *)
Definition step (prog : list Item) (cfg : nat * Machine)
  : option (nat * Machine) :=
  let (pc, m) := cfg in
  match nth_error prog pc with
  | None => None
  | Some (Bind _) | Some (Align _ _) => Some (S pc, m)
  | Some (Emit (jmp l)) => goto prog l m
  | Some (Emit (jz l)) => if zf m then goto prog l m else Some (S pc, m)
  | Some (Emit i) =>
      match exec_inst i m with
      | Some m' => Some (S pc, m')
      | None => None
      end
  end.

(** The configurations visited in at most [n] steps, the first included. *)
Fixpoint run (n : nat) (prog : list Item) (cfg : nat * Machine)
  : list (nat * Machine) :=
  cfg ::
  match n with
  | O => []
  | S n' =>
      match step prog cfg with
      | Some cfg' => run n' prog cfg'
      | None => []
      end
  end.

(** A callback that only emits: it extends the item stream it is given. *)
Definition appends {S : Type} (func : Callback S) : Prop :=
  forall c s, exists cb, code (fst (func c s)) = code c ++ cb.

(** Instrumentation: the same callback, counting its invocations. *)
Definition counted {S : Type} (func : Callback S) : Callback (nat * S) :=
  fun c ns =>
    let '(c', s') := func c (snd ns) in (c', (Datatypes.S (fst ns), s')).

(** Positions [start .. start + len - 1]. *)
Definition in_range (start len pc : nat) : Prop :=
  (start <= pc < start + len)%nat.

(** A sample recovery callback, and a caller that created one label (its
    external fallback label [0]) before entering the helper. *)
Definition sample_func : Callback unit :=
  fun c s => (inst (mov x86.rcx x86.rdx) c, s).

Definition c1 : X86Assembler := snd (newLabel c0).

(* ================================================================== *)
(** ** Build sessions *)

(** A function pointer of type [FT]. *)
Inductive pointer : Type :=
| nullptr
| ptr (addr : N).

(** [!p]: the null pointer is [nullptr], or address 0. *)
Definition is_null (p : pointer) : bool :=
  match p with
  | nullptr => true
  | ptr a => (a =? 0)%N
  end.

Inductive Failure : Type := EncodingError.

Inductive Outcome (A : Type) : Type :=
| Returned (a : A)
| Failed (e : Failure).
Arguments Returned {A} a.
Arguments Failed {A} e.

(** Modelled from the spec: [ensure] comes from util/types.hpp, which is not
    among the sources.  A failed [ensure] ends the build on the spot, in
    the state reached so far; the specification names the failure of a
    build [EncodingError]. *)
Definition ensure {A W : Type} (cond : bool) (w : W) (k : Outcome A * W)
  : Outcome A * W :=
  if cond then k else (Failed EncodingError, w).

(** [builder(std::ref(compiler), args)]: a callable that receives the
    assembler and the argument registers, and carries captured state. *)
Definition Builder (S : Type) : Type :=
  X86Assembler -> list X86Gp -> S -> X86Assembler * S.

(** Instrumentation: the same builder, logging the [args] of each call. *)
Definition observing {S : Type} (builder : Builder S)
  : Builder (list (list X86Gp) * S) :=
  fun c args ls =>
    let '(c', s') := builder c args (snd ls) in (c', (fst ls ++ [args], s')).

(** [asmjit::inline_runtime]: a pointer to a caller-owned block and its
    capacity. *)
Record inline_runtime : Type := mk_inline_runtime {
  m_data : N;
  m_size : N
}.

Definition kErrorNoVirtualMemory : Error := 2%N.

(** A [built_function<FT, Size>] object: the address and the contents of
    its member array [m_data]. *)
Record built_function_obj : Type := mk_built_function {
  bf_addr : N;
  bf_data : list Byte.byte
}.

(** [operator FT() const]: [FT(+m_data)] *)
Definition operator_FT (f : built_function_obj) : pointer := ptr (bf_addr f).

Section Sessions.
(** State of the process-wide runtime behind [get_global_runtime()], and
    its [add] ([jit_runtime::_add], defined outside this header). *)
Variable Runtime : Type.
Variable rt_add : Runtime -> X86Assembler -> Error * pointer * Runtime.

(** The encoder's output for an assembled program. *)
Variable encode : X86Assembler -> list Byte.byte.

(** The [_WIN32] macro. *)
Variable WIN32 : bool.

Definition getCodeSize (c : X86Assembler) : N :=
  N.of_nat (List.length (encode c)).

(** What a build can affect: the global runtime, the records handed to
    the symbol sink, and the state captured by the builder. *)
Record World (S : Type) : Type := mkWorld {
  global_runtime : Runtime;
  announced : list (pointer * N * string);
  user : S
}.
Arguments mkWorld {S}.
Arguments global_runtime {S}.
Arguments announced {S}.
Arguments user {S}.

(** Modelled from the spec: [jit_announce] is only declared in the header.
    Section 6 describes the symbol sink as a one-way notification
    [announce(address, size, name)]; it is kept as a log of records. *)
Definition jit_announce {S : Type} (func : pointer) (sz : N) (name : string)
    (w : World S) : World S :=
  mkWorld (global_runtime w) (announced w ++ [(func, sz, name)]) (user w).

(** [build_function_asm<FT>(name, builder)] *)
Definition build_function_asm {S : Type} (name : string)
    (builder : Builder S) (w : World S) : Outcome pointer * World S :=
  let rt := global_runtime w in
  let compiler := c0 in
  let args :=
    if WIN32 then [x86.rcx; x86.rdx; x86.r8; x86.r9]
    else [x86.rdi; x86.rsi; x86.rdx; x86.rcx] in
  let '(compiler, s) := builder compiler args (user w) in
  let w := mkWorld (global_runtime w) (announced w) s in
  ensure (lastError compiler =? kErrorOk)%N w
    (let '(err, result, rt) := rt_add rt compiler in
     let w := mkWorld rt (announced w) (user w) in
     if negb (err =? kErrorOk)%N then (Returned nullptr, w)
     else (Returned result,
           jit_announce result (getCodeSize compiler) name w)).

(** Modelled from the spec: [inline_runtime::_add] is declared in the
    header and defined elsewhere.  Section 4.3: the code is placed
    relative to the start of the block, and the call fails if the encoded
    size exceeds the block's capacity, rather than growing the block.
    [block] is the content of the memory at [m_data]. *)
Definition inline_runtime_add (rt : inline_runtime) (code : X86Assembler)
    (block : list Byte.byte) : Error * pointer * list Byte.byte :=
  if (m_size rt <? getCodeSize code)%N then
    (kErrorNoVirtualMemory, nullptr, block)
  else
    (kErrorOk, ptr (m_data rt),
     encode code ++ skipn (List.length (encode code)) block).

(** The constructor of [built_function<FT, Size>] (the variant used when
    [__APPLE__] is not defined).  [this_data] is the address of the
    object's array [m_data] and [block] its initial content. *)
Definition built_function {S : Type} (Size : N) (this_data : N)
    (block : list Byte.byte) (name : string) (builder : Builder S)
    (w : World S) : Outcome built_function_obj * World S :=
  let rt := mk_inline_runtime this_data Size in
  let compiler := c0 in
  let args :=
    if WIN32 then [x86.rcx; x86.rdx; x86.r8; x86.r9]
    else [x86.rdi; x86.rsi; x86.rdx; x86.rcx] in
  let '(compiler, s) := builder compiler args (user w) in
  let w := mkWorld (global_runtime w) (announced w) s in
  (* compiler.getLastError() || rt.add(&result, &code): the right operand
     is evaluated only when there is no encoder error *)
  if negb (lastError compiler =? kErrorOk)%N then
    ensure false w (Returned (mk_built_function this_data block), w)
  else
    let '(err, result, block) := inline_runtime_add rt compiler block in
    if negb (err =? kErrorOk)%N then
      ensure false w (Returned (mk_built_function this_data block), w)
    else
      (Returned (mk_built_function this_data block),
       jit_announce result (getCodeSize compiler) name w).

(** The constructor of [built_function] when [__APPLE__] is defined:
    [m_func(ensure(build_function_asm<FT>(name, builder)))]. *)
Definition built_function_apple {S : Type} (name : string)
    (builder : Builder S) (w : World S) : Outcome pointer * World S :=
  match build_function_asm name builder w with
  | (Returned p, w') => ensure (negb (is_null p)) w' (Returned p, w')
  | r => r
  end.
End Sessions.

Arguments mkWorld {Runtime S}.
Arguments global_runtime {Runtime S}.
Arguments announced {Runtime S}.
Arguments user {Runtime S}.
Arguments jit_announce {Runtime S}.
Arguments build_function_asm {Runtime} rt_add encode WIN32 {S}.
Arguments built_function {Runtime} encode WIN32 {S}.

(** A builder that emits one instruction, and one whose emission leaves an
    encoder error behind. *)
Definition sample_builder : Builder unit :=
  fun c args s => (inst (mov x86.rax (nth 0 args x86.rax)) c, s).

Definition failing_builder : Builder unit :=
  fun c args s => (mkAsm (code c) (labels c) 3%N, s).

(** A sample runtime: its state counts the calls of [add]; it hands out
    address [4096 * n], and refuses once three functions were added. *)
Definition sample_add (n : nat) (code : X86Assembler) : Error * pointer * nat :=
  if (n <? 3)%nat then (kErrorOk, ptr (4096 * N.of_nat (Datatypes.S n)), Datatypes.S n)
  else (kErrorNoVirtualMemory, nullptr, Datatypes.S n).

(** A sample encoder: three bytes per item. *)
Definition sample_encode (c : X86Assembler) : list Byte.byte :=
  flat_map (fun _ => [Byte.x90; Byte.x90; Byte.x90]) (code c).

Definition w0 : World nat unit := mkWorld 0%nat [] tt.

(** The same world with a runtime that has no room left. *)
Definition w_full : World nat unit := mkWorld 3%nat [] tt.

Definition block4 : list Byte.byte := [Byte.x00; Byte.x00; Byte.x00; Byte.x00].

(* ================================================================== *)
(** ** jit_runtime: the executable memory arena *)

Module jit_runtime.
Local Open Scope N_scope.

(** Modelled from the spec: the arena partition behind [jit_runtime],
    whose data lives outside this header.  Section 3: a base address, a
    fixed capacity, the current bump offset, and the log of committed
    sub-allocations (start, length, executable flag). *)
Record Arena : Type := mkArena {
  base : N;
  capacity : N;
  offset : N;
  log : list (N * N * bool)
}.

(** Modelled from the spec: a partition as created, with nothing handed
    out. *)
Definition fresh (b cap : N) : Arena := mkArena b cap 0 [].














End jit_runtime.

(* ================================================================== *)
(** ** Further notions used for the helpers *)

(** The configuration reached after exactly [n] steps. *)
Fixpoint steps (n : nat) (prog : list Item) (cfg : nat * Machine)
  : option (nat * Machine) :=
  match n with
  | O => Some cfg
  | S n' =>
      match step prog cfg with
      | Some cfg' => steps n' prog cfg'
      | None => None
      end
  end.

(** A callback that never makes the assembler forget a label it created. *)
Definition keeps_labels {S : Type} (func : Callback S) : Prop :=
  forall c s, (labels c <= labels (fst (func c s)))%nat.

(** The registers named by an argument array. *)
Definition ids (args : list X86Gp) : list RegId := map id args.

(* ================================================================== *)
(** ** Full timestamp read *)

Lemma skipn_length_app {A} (l l' : list A) : skipn (List.length l) (l ++ l') = l'.
Proof. induction l; simpl; auto. Qed.

Lemma emitted_app c c' l : code c' = code c ++ l -> emitted c c' = l.
Proof. unfold emitted. intros ->. apply skipn_length_app. Qed.

Section Halves.
(** Splitting a 64-bit counter into the halves [rdtsc] delivers, and
    putting them together again. *)

Lemma mod32_mod64 x : (x mod 2 ^ 32) mod 2 ^ 64 = x mod 2 ^ 32.
Proof.
  apply Z.mod_small.
  assert (0 <= x mod 2 ^ 32 < 2 ^ 32) by (apply Z.mod_pos_bound; reflexivity).
  change (2 ^ 64) with (2 ^ 32 * 2 ^ 32). nia.
Qed.

Lemma mod32_mod32 x : (x mod 2 ^ 32) mod 2 ^ 32 = x mod 2 ^ 32.
Proof. apply Z.mod_mod. discriminate. Qed.

Lemma mod64_mod64 x : (x mod 2 ^ 64) mod 2 ^ 64 = x mod 2 ^ 64.
Proof. apply Z.mod_mod. discriminate. Qed.

Lemma recombine t : Z.lor (t mod 2 ^ 32) (Z.shiftl (Z.shiftr t 32) 32) = t.
Proof.
  apply Z.bits_inj'. intros n Hn.
  rewrite Z.lor_spec, Z.shiftl_spec by assumption.
  destruct (Z.ltb_spec n 32).
  - rewrite Z.mod_pow2_bits_low by lia.
    rewrite (Z.testbit_neg_r _ (n - 32)) by lia. apply orb_false_r.
  - rewrite Z.mod_pow2_bits_high by lia.
    rewrite Z.shiftr_spec by lia. simpl. f_equal. lia.
Qed.

Lemma recombine_comm t : Z.lor (Z.shiftl (Z.shiftr t 32) 32) (t mod 2 ^ 32) = t.
Proof. rewrite Z.lor_comm. apply recombine. Qed.

Variable t : Z.
Hypothesis t_64bit : 0 <= t < 2 ^ 64.

Lemma shiftr32_small : Z.shiftr t 32 mod 2 ^ 32 = Z.shiftr t 32.
Proof.
  apply Z.mod_small. rewrite Z.shiftr_div_pow2 by lia.
  split; [apply Z.div_pos; lia|].
  apply Z.div_lt_upper_bound; [reflexivity|].
  change (2 ^ 32 * 2 ^ 32) with (2 ^ 64). lia.
Qed.

Lemma high_half_small :
  Z.shiftl (Z.shiftr t 32 mod 2 ^ 32) 32 mod 2 ^ 64 = Z.shiftl (Z.shiftr t 32) 32.
Proof.
  rewrite shiftr32_small.
  apply Z.mod_small.
  rewrite Z.shiftl_mul_pow2, Z.shiftr_div_pow2 by lia.
  pose proof (Z.mul_div_le t (2 ^ 32) eq_refl).
  assert (0 <= t / 2 ^ 32) by (apply Z.div_pos; lia).
  lia.
Qed.

Lemma wrap64_id : t mod 2 ^ 64 = t.
Proof. now apply Z.mod_small. Qed.
End Halves.

(** The count of [shl rdx, 32] is not masked away. *)
Lemma shl32_count : 32 mod 64 = 32 /\ (32 =? 0) = false.
Proof. split; reflexivity. Qed.

Ltac norm_regs Ht Hm :=
  repeat first
    [ rewrite mod32_mod64
    | rewrite mod32_mod32
    | rewrite mod64_mod64
    | rewrite (high_half_small _ Ht)
    | rewrite recombine
    | rewrite recombine_comm
    | rewrite (wrap64_id _ Ht)
    | rewrite (wrap64_id _ (Hm _)) ].

Ltac run_machine :=
  cbn [exec_straight exec_inst x86.rax x86.rdx r32 r64 size id RegSize_eqb
       read_gp write_gp set_zf bits gpr tsc zf deref set_gpr RegId_eqb].

(** What [build_get_tsc] appends, by the shape of the destination reference. *)
Lemma build_get_tsc_code (c : X86Assembler) (to : GpRef) :
  code (build_get_tsc c to) =
  code c ++
    (if same_object to (Const x86.rax) then
       [Emit rdtsc; Emit (shl x86.rdx 32); Emit (or_ x86.rax x86.rdx)]
     else if same_object to (Const x86.rdx) then
       [Emit rdtsc; Emit (shl x86.rdx 32); Emit (or_ x86.rdx x86.rax)]
     else
       [Emit (xchg x86.rax (deref to)); Emit rdtsc; Emit (shl x86.rdx 32);
        Emit (xchg x86.rax (deref to));
        Emit (mov (r32 (deref to)) (r32 (deref to)));
        Emit (or_ (r64 (deref to)) x86.rdx)]).
Proof.
  unfold build_get_tsc, inst, emit.
  destruct (same_object to (Const x86.rax)) eqn:Ea;
    destruct (same_object to (Const x86.rdx)) eqn:Ed;
    cbn [negb andb code]; repeat rewrite <- app_assoc; reflexivity.
Qed.

Ltac get_tsc_case Ht Hm :=
  eexists; split;
  [ run_machine;
    rewrite (proj1 shl32_count), (proj2 shl32_count); run_machine; reflexivity
  | run_machine; repeat split;
    [ norm_regs Ht Hm; reflexivity
    | let r := fresh "r" in
      let H := fresh "H" in
      intros r ? ? H; destruct r; try congruence;
      try (exfalso; apply H; reflexivity);
      run_machine; norm_regs Ht Hm; reflexivity
    | intros ?; try congruence; norm_regs Ht Hm; reflexivity
    | intros ?; try discriminate; norm_regs Ht Hm; reflexivity ] ].

(** C1 (amended): for every 64-bit destination operand, except a copy of
    [rdx] held in an object other than the constant [x86::rdx], the
    sequence emitted by [build_get_tsc] leaves the destination holding the
    full 64-bit counter.  Every general-purpose register other than the
    destination, [rax] and [rdx] keeps its contents, and [rax] is restored
    too unless the destination is the constant [x86::rdx].  The native
    output registers are otherwise clobbered: [rdx], when it is not the
    destination, holds the high half of the counter shifted left by 32, and
    with destination [x86::rdx] the register [rax] holds the low half. *)
Theorem build_get_tsc_correct :
  forall (c : X86Assembler) (to : GpRef) (m : Machine),
    size (deref to) = gpq ->
    to <> Object x86.rdx ->
    regs_64bit m ->
    0 <= tsc m < 2 ^ 64 ->
    exists m',
      exec_straight (emitted c (build_get_tsc c to)) m = Some m' /\
      gpr m' (id (deref to)) = tsc m /\
      (forall r, r <> id (deref to) -> r <> RDX ->
                 (r = RAX -> to <> Const x86.rdx) -> gpr m' r = gpr m r) /\
      (id (deref to) <> RDX ->
       gpr m' RDX = Z.shiftl (Z.shiftr (tsc m) 32) 32) /\
      (to = Const x86.rdx -> gpr m' RAX = tsc m mod 2 ^ 32).
Proof.
  intros c to m Hsize Hcopy Hm Ht.
  rewrite (emitted_app _ _ _ (build_get_tsc_code c to)).
  destruct m as [g z t]. unfold regs_64bit in Hm. cbn [gpr tsc] in *.
  destruct to as [[i s]|[i s]]; cbn [deref size] in Hsize; subst s;
    destruct i; cbn [same_object X86Gp_eqb RegId_eqb RegSize_eqb andb id size
                     x86.rax x86.rdx];
    try (exfalso; apply Hcopy; reflexivity);
    get_tsc_case Ht Hm.
Qed.

Lemma m0_regs_64bit : regs_64bit m0.
Proof. intros r; destruct r; vm_compute; split; congruence. Defined.

Lemma build_get_tsc_correct_witness :
  exists m',
    exec_straight (emitted c0 (build_get_tsc c0 (Object x86.r10))) m0 = Some m' /\
    gpr m' R10 = 5 * 2 ^ 32 + 9 /\
    (forall r, r <> R10 -> r <> RDX ->
               (r = RAX -> Object x86.r10 <> Const x86.rdx) ->
               gpr m' r = gpr m0 r) /\
    (R10 <> RDX -> gpr m' RDX = Z.shiftl (Z.shiftr (5 * 2 ^ 32 + 9) 32) 32) /\
    (Object x86.r10 = Const x86.rdx -> gpr m' RAX = (5 * 2 ^ 32 + 9) mod 2 ^ 32).
Proof.
  apply (build_get_tsc_correct c0 (Object x86.r10) m0).
  - reflexivity.
  - discriminate.
  - exact m0_regs_64bit.
  - vm_compute; split; congruence.
Defined.

(** C1 as worded fails: with the default destination [x86::rax] the emitted
    sequence is [rdtsc; shl rdx, 32; or rax, rdx], which leaves the shifted
    high half in [rdx] instead of its previous contents. *)
Lemma get_tsc_clobbers_rdx :
  ~ get_tsc_preserves_all_others c0 (Const x86.rax) m0.
Proof.
  intros [m' [Hrun [_ Hframe]]].
  vm_compute in Hrun. injection Hrun as <-.
  assert (H : RDX <> id (deref (Const x86.rax))) by discriminate.
  specialize (Hframe RDX H). vm_compute in Hframe. discriminate.
Qed.

(** When the destination is a copy of [rdx] (for instance [args[2]] of a
    build session on a non-Windows target), neither address test matches,
    the swap path runs on [rdx] itself, and only the low half arrives. *)
Example build_get_tsc_rdx_copy :
  exists m',
    exec_straight (emitted c0 (build_get_tsc c0 (Object x86.rdx))) m0 = Some m' /\
    gpr m' RDX = 9 /\ gpr m' RAX = 5 * 2 ^ 32 /\ tsc m0 = 5 * 2 ^ 32 + 9.
Proof. eexists; split; [vm_compute; reflexivity|]. repeat split. Qed.

(* ================================================================== *)
(** ** Transactional entry with fallback *)

Section TransactionEnter.
Context {S : Type}.
Variables (c : X86Assembler) (fallback : Label) (func : Callback S) (s : S).

(** The four items emitted before the callback runs. *)
Let prologue : list Item :=
  [Emit (jmp (Datatypes.S (labels c))); Bind (labels c);
   Emit (test x86.eax x86.eax); Emit (jz fallback)].

(** The assembler as the callback finds it. *)
Let at_call : X86Assembler :=
  mkAsm (code c ++ prologue) (Datatypes.S (Datatypes.S (labels c))) (lastError c).

Lemma build_transaction_enter_unfold :
  build_transaction_enter c fallback func s =
  (labels c,
   bind (Datatypes.S (labels c))
     (align kAlignCode 16 (fst (func at_call s))),
   snd (func at_call s)).
Proof.
  unfold build_transaction_enter, newLabel, inst, bind, emit, at_call, prologue.
  cbn [code labels lastError].
  repeat rewrite <- app_assoc. cbn [app].
  destruct (func _ s) as [c2 s2]. reflexivity.
Qed.

Lemma build_transaction_enter_code (cb : list Item) :
  code (fst (func at_call s)) = code at_call ++ cb ->
  code (snd (fst (build_transaction_enter c fallback func s))) =
  code c ++ prologue ++ cb ++ [Align kAlignCode 16; Bind (Datatypes.S (labels c))].
Proof.
  intros Hcb. rewrite build_transaction_enter_unfold.
  cbn [fst snd bind align emit code]. rewrite Hcb.
  unfold at_call. cbn [code].
  repeat rewrite <- app_assoc. reflexivity.
Qed.
End TransactionEnter.

Lemma nth_error_after {A} (l l' : list A) (k : nat) :
  nth_error (l ++ l') (List.length l + k) = nth_error l' k.
Proof.
  rewrite nth_error_app2 by lia. f_equal. lia.
Qed.

Lemma counted_snd {S} (func : Callback S) c n s :
  snd (counted func c (n, s)) = (Datatypes.S n, snd (func c s)).
Proof. unfold counted. cbn [fst snd]. destruct (func c s); reflexivity. Qed.

Lemma test_self_zf (m : Machine) (g : X86Gp) :
  exec_inst (test g g) m = Some (set_zf (read_gp m g =? 0) m).
Proof.
  unfold exec_inst. destruct (size g); cbn [RegSize_eqb];
    rewrite Z.land_diag; reflexivity.
Qed.

(** C2: in the code emitted by [build_transaction_enter], execution from the
    landing pad with a zero abort status in [eax] goes through the test and
    the conditional jump straight to the position of the caller's fallback
    label, visiting no position of the callback's code; with a non-zero
    status it falls through to the first position of the callback's code.
    During emission the callback is invoked exactly once. *)
Theorem build_transaction_enter_routes :
  forall (S : Type) (c : X86Assembler) (fallback : Label)
         (func : Callback S) (s : S),
    appends func ->
    let r := build_transaction_enter c fallback func s in
    let fall := fst (fst r) in
    let c' := snd (fst r) in
    let pad := (List.length (code c) + 1)%nat in
    exists (cb : list Item) (at_call : X86Assembler),
      (* the landing pad, and where the callback's code sits *)
      nth_error (code c') pad = Some (Bind fall) /\
      code at_call = firstn (pad + 3) (code c') /\
      cb = emitted at_call (fst (func at_call s)) /\
      (forall k, (k < List.length cb)%nat ->
                 nth_error (code c') (pad + 3 + k) = nth_error cb k) /\
      (* routing, in any program that continues the emitted code *)
      (forall (rest : list Item) (m : Machine) (p : nat),
          let prog := code c' ++ rest in
          label_pos prog fallback = Some p ->
          ~ in_range (pad + 3) (List.length cb) p ->
          (read_gp m x86.eax = 0 ->
             run 3 prog (pad, m) =
               [(pad, m); (pad + 1, m); (pad + 2, set_zf true m);
                (p, set_zf true m)]%nat /\
             forall cfg, In cfg (run 3 prog (pad, m)) ->
                         ~ in_range (pad + 3) (List.length cb) (fst cfg)) /\
          (read_gp m x86.eax <> 0 ->
             run 3 prog (pad, m) =
               [(pad, m); (pad + 1, m); (pad + 2, set_zf false m);
                (pad + 3, set_zf false m)]%nat)) /\
      (* one invocation *)
      (forall n : nat,
          snd (build_transaction_enter c fallback (counted func) (n, s)) =
          (Datatypes.S n, snd r)).
Proof.
  intros S c fallback func s Happ.
  set (pre := [Emit (jmp (Datatypes.S (labels c))); Bind (labels c);
               Emit (test x86.eax x86.eax); Emit (jz fallback)]).
  set (ac := mkAsm (code c ++ pre) (Datatypes.S (Datatypes.S (labels c))) (lastError c)).
  destruct (Happ ac s) as [cb Hcb].
  exists cb, ac.
  pose proof (build_transaction_enter_code c fallback func s cb Hcb) as Hcode.
  cbv zeta.
  rewrite Hcode.
  rewrite (build_transaction_enter_unfold c fallback func s) at 1.
  cbn [fst snd].
  split; [|split; [|split; [|split; [|split]]]].
  - rewrite nth_error_after. reflexivity.
  - rewrite app_assoc.
    replace (List.length (code c) + 1 + 3)%nat
      with (List.length (code c ++ pre) + 0)%nat
      by (rewrite length_app; cbn [List.length pre]; lia).
    rewrite firstn_app_2. cbn [firstn]. rewrite app_nil_r. reflexivity.
  - symmetry. apply emitted_app. exact Hcb.
  - intros k Hk.
    replace (List.length (code c) + 1 + 3 + k)%nat
      with (List.length (code c) + (4 + k))%nat by lia.
    rewrite nth_error_after.
    change (4 + k)%nat with (List.length pre + k)%nat.
    cbv zeta. fold pre.
    rewrite nth_error_after.
    apply nth_error_app1. exact Hk.
  - intros rest m p.
    match goal with |- label_pos ?P _ = _ -> _ => set (prog := P) end.
    intros Hp Hext.
    assert (Hprog : prog = code c ++ pre ++ cb ++
                    [Align kAlignCode 16; Bind (Datatypes.S (labels c))] ++ rest).
    { unfold prog. repeat rewrite <- app_assoc. reflexivity. }
    assert (H0 : nth_error prog (List.length (code c) + 1) = Some (Bind (labels c))).
    { rewrite Hprog, nth_error_after. reflexivity. }
    assert (H1 : nth_error prog (List.length (code c) + 1 + 1)
                 = Some (Emit (test x86.eax x86.eax))).
    { rewrite Hprog. replace (List.length (code c) + 1 + 1)%nat
        with (List.length (code c) + 2)%nat by lia.
      rewrite nth_error_after. reflexivity. }
    assert (H2 : nth_error prog (List.length (code c) + 1 + 2)
                 = Some (Emit (jz fallback))).
    { rewrite Hprog. replace (List.length (code c) + 1 + 2)%nat
        with (List.length (code c) + 3)%nat by lia.
      rewrite nth_error_after. reflexivity. }
    assert (Hrun : forall b, (read_gp m x86.eax =? 0) = b ->
              run 3 prog (List.length (code c) + 1, m)%nat =
              [(List.length (code c) + 1, m); (List.length (code c) + 1 + 1, m);
               (List.length (code c) + 1 + 2, set_zf b m);
               (if b then p else List.length (code c) + 1 + 3, set_zf b m)]%nat).
    { intros b Hb. cbn [run].
      unfold step at 1. rewrite H0.
      replace (Datatypes.S (List.length (code c) + 1))
        with (List.length (code c) + 1 + 1)%nat by lia.
      unfold step at 1. rewrite H1, test_self_zf, Hb.
      replace (Datatypes.S (List.length (code c) + 1 + 1))
        with (List.length (code c) + 1 + 2)%nat by lia.
      unfold step at 1. rewrite H2. cbn [set_zf zf]. unfold goto. rewrite Hp.
      replace (Datatypes.S (List.length (code c) + 1 + 2))
        with (List.length (code c) + 1 + 3)%nat by lia.
      destruct b; reflexivity. }
    split.
    + intros Hz. rewrite (Hrun true) by (apply Z.eqb_eq; exact Hz).
      split; [reflexivity|].
      intros cfg Hin. unfold in_range in *.
      repeat (destruct Hin as [<-|Hin]; [cbn [fst]; lia|]). destruct Hin.
    + intros Hnz. rewrite (Hrun false) by (apply Z.eqb_neq; exact Hnz).
      reflexivity.
  - intros n.
    rewrite !build_transaction_enter_unfold. cbn [snd].
    rewrite counted_snd. reflexivity.
Qed.

Lemma sample_func_appends : appends sample_func.
Proof. intros c s. exists [Emit (mov x86.rcx x86.rdx)]. reflexivity. Defined.

Lemma build_transaction_enter_routes_witness :
  appends sample_func /\
  let r := build_transaction_enter c1 0%nat sample_func tt in
  let prog := code (snd (fst r)) ++ [Bind 0%nat] in
  nth_error prog 1 = Some (Bind (fst (fst r))) /\
  run 3 prog (1%nat, m_zero) =
    [(1, m_zero); (2, m_zero); (3, set_zf true m_zero);
     (7, set_zf true m_zero)]%nat /\
  run 3 prog (1%nat, m0) =
    [(1, m0); (2, m0); (3, set_zf false m0); (4, set_zf false m0)]%nat /\
  nth_error prog 4 = Some (Emit (mov x86.rcx x86.rdx)) /\
  snd (build_transaction_enter c1 0%nat (counted sample_func) (0%nat, tt)) =
    (1%nat, tt).
Proof.
  split; [exact sample_func_appends|].
  destruct (build_transaction_enter_routes unit c1 0%nat sample_func tt
              sample_func_appends)
    as (cb & ac & Hpad & _ & Hcb & _ & Hroute & Hone).
  rewrite (emitted_app ac (fst (sample_func ac tt))
             [Emit (mov x86.rcx x86.rdx)] eq_refl) in Hcb.
  subst cb.
  specialize (Hroute [Bind 0%nat]).
  assert (Hext : ~ in_range (0 + 1 + 3) 1 7).
  { unfold in_range. cbn. lia. }
  destruct (Hroute m_zero 7%nat eq_refl Hext) as [Hz _].
  destruct (Hroute m0 7%nat eq_refl Hext) as [_ Hnz].
  cbv zeta.
  split; [reflexivity|].
  split; [apply Hz; reflexivity|].
  split; [apply Hnz; discriminate|].
  split; [reflexivity|].
  apply (Hone 0%nat).
Defined.

Lemma label_pos_first (l1 l2 : list Item) (b : Label) :
  ~ In (Bind b) l1 ->
  label_pos (l1 ++ Bind b :: l2) b = Some (List.length l1).
Proof.
  induction l1 as [|it l1 IH]; intros Hnot; cbn [app label_pos List.length].
  - now rewrite Nat.eqb_refl.
  - assert (Hrec : label_pos (l1 ++ Bind b :: l2) b = Some (List.length l1)).
    { apply IH. intros Hin. apply Hnot. now right. }
    destruct it as [i|l'|md n]; try (rewrite Hrec; reflexivity).
    destruct (Nat.eqb_spec l' b) as [->|Hne].
    + exfalso. apply Hnot. now left.
    + rewrite Hrec. reflexivity.
Qed.

(** C6: the sequence emitted by [build_transaction_enter] is an
    unconditional jump to a start label, the landing pad (the returned
    label, bound right before the abort-status test), the conditional jump
    to the caller's fallback label, the callback's code, an alignment and
    the binding of the start label as the last item.  The helper itself
    emits no [xbegin]: any [xbegin] in the sequence was emitted by the
    callback.  The two labels are new and distinct, and the initial jump
    lands on the last item. *)
Theorem build_transaction_enter_shape :
  forall (S : Type) (c : X86Assembler) (fallback : Label)
         (func : Callback S) (s : S),
    appends func ->
    let r := build_transaction_enter c fallback func s in
    let fall := fst (fst r) in
    let c' := snd (fst r) in
    exists (begin : Label) (cb : list Item) (at_call : X86Assembler),
      emitted c c' =
        [Emit (jmp begin); Bind fall; Emit (test x86.eax x86.eax);
         Emit (jz fallback)] ++ cb ++ [Align kAlignCode 16; Bind begin] /\
      emitted c at_call =
        [Emit (jmp begin); Bind fall; Emit (test x86.eax x86.eax);
         Emit (jz fallback)] /\
      cb = emitted at_call (fst (func at_call s)) /\
      fall = labels c /\ begin = Datatypes.S (labels c) /\
      (forall l, In (Emit (xbegin l)) (emitted c c') -> In (Emit (xbegin l)) cb) /\
      (forall (rest : list Item) (m : Machine),
          ~ In (Bind begin) (code c ++ cb) ->
          step (code c' ++ rest) (List.length (code c), m) =
          Some (List.length (code c') - 1, m)%nat /\
          nth_error (code c' ++ rest) (List.length (code c') - 1) =
          Some (Bind begin)).
Proof.
  intros S c fallback func s Happ.
  set (pre := [Emit (jmp (Datatypes.S (labels c))); Bind (labels c);
               Emit (test x86.eax x86.eax); Emit (jz fallback)]).
  set (ac := mkAsm (code c ++ pre) (Datatypes.S (Datatypes.S (labels c))) (lastError c)).
  destruct (Happ ac s) as [cb Hcb].
  pose proof (build_transaction_enter_code c fallback func s cb Hcb) as Hcode.
  cbv zeta.
  exists (Datatypes.S (labels c)), cb, ac.
  rewrite (emitted_app _ _ _ Hcode).
  rewrite Hcode.
  rewrite (build_transaction_enter_unfold c fallback func s).
  cbn [fst snd].
  split; [reflexivity|].
  split; [apply emitted_app; reflexivity|].
  split; [symmetry; apply emitted_app; exact Hcb|].
  split; [reflexivity|].
  split; [reflexivity|].
  split.
  - intros l Hin.
    apply in_app_or in Hin. destruct Hin as [Hin|Hin].
    + cbn in Hin. repeat (destruct Hin as [Hin|Hin]; [discriminate|]). destruct Hin.
    + apply in_app_or in Hin. destruct Hin as [Hin|Hin]; [exact Hin|].
      cbn in Hin. repeat (destruct Hin as [Hin|Hin]; [discriminate|]). destruct Hin.
  - intros rest m Hfresh.
    set (b := Datatypes.S (labels c)) in *.
    assert (Hprog :
      (code c ++ pre ++ cb ++ [Align kAlignCode 16; Bind b]) ++ rest =
      (code c ++ pre ++ cb ++ [Align kAlignCode 16]) ++ Bind b :: rest).
    { repeat rewrite <- app_assoc. reflexivity. }
    assert (Hlen :
      (List.length (code c ++ pre ++ cb ++ [Align kAlignCode 16; Bind b]) - 1 =
       List.length (code c ++ pre ++ cb ++ [Align kAlignCode 16]))%nat).
    { repeat rewrite length_app. cbn [List.length]. lia. }
    fold pre. rewrite Hlen, Hprog.
    assert (Hpos : label_pos
              ((code c ++ pre ++ cb ++ [Align kAlignCode 16]) ++ Bind b :: rest) b =
              Some (List.length (code c ++ pre ++ cb ++ [Align kAlignCode 16]))).
    { apply label_pos_first. intros Hin.
      apply in_app_or in Hin. destruct Hin as [Hin|Hin].
      - apply Hfresh. apply in_or_app. now left.
      - apply in_app_or in Hin. destruct Hin as [Hin|Hin].
        + cbn in Hin.
          destruct Hin as [Hin|[Hin|[Hin|[Hin|[]]]]]; try discriminate.
          injection Hin as Hin. unfold b in Hin. lia.
        + apply in_app_or in Hin. destruct Hin as [Hin|Hin].
          * apply Hfresh. apply in_or_app. now right.
          * cbn in Hin. destruct Hin as [Hin|[]]. discriminate. }
    split.
    + assert (Hjmp : nth_error
                ((code c ++ pre ++ cb ++ [Align kAlignCode 16]) ++ Bind b :: rest)
                (List.length (code c)) = Some (Emit (jmp b))).
      { replace (List.length (code c)) with (List.length (code c) + 0)%nat by lia.
        rewrite <- app_assoc. rewrite nth_error_after. reflexivity. }
      unfold step. rewrite Hjmp. unfold goto. rewrite Hpos. reflexivity.
    + replace (List.length (code c ++ pre ++ cb ++ [Align kAlignCode 16]))
        with (List.length (code c ++ pre ++ cb ++ [Align kAlignCode 16]) + 0)%nat by lia.
      rewrite nth_error_after. reflexivity.
Qed.

(* ================================================================== *)
(** ** Build sessions *)

Section SessionFacts.
Variable Runtime : Type.
Variable rt_add : Runtime -> X86Assembler -> Error * pointer * Runtime.
Variable encode : X86Assembler -> list Byte.byte.
Variable WIN32 : bool.

Let args : list X86Gp :=
  if WIN32 then [x86.rcx; x86.rdx; x86.r8; x86.r9]
  else [x86.rdi; x86.rsi; x86.rdx; x86.rcx].

Let build {S} := @build_function_asm Runtime rt_add encode WIN32 S.

(** The session in terms of the builder's single run on a fresh
    assembler. *)
Lemma build_function_asm_unfold {S} (name : string) (builder : Builder S)
    (w : World Runtime S) :
  let compiler := fst (builder c0 args (user w)) in
  let s := snd (builder c0 args (user w)) in
  let added := rt_add (global_runtime w) compiler in
  build name builder w =
  if (lastError compiler =? kErrorOk)%N then
    if (fst (fst added) =? kErrorOk)%N then
      (Returned (snd (fst added)),
       mkWorld (snd added)
         (announced w ++ [(snd (fst added), getCodeSize encode compiler, name)]) s)
    else (Returned nullptr, mkWorld (snd added) (announced w) s)
  else (Failed EncodingError, mkWorld (global_runtime w) (announced w) s).
Proof.
  unfold build, build_function_asm, ensure, jit_announce. fold args. cbv zeta.
  destruct (builder c0 args (user w)) as [compiler s]. cbn [fst snd].
  destruct (lastError compiler =? kErrorOk)%N; [|reflexivity].
  destruct (rt_add (global_runtime w) compiler) as [[err result] rt].
  cbn [fst snd global_runtime announced user].
  destruct (err =? kErrorOk)%N; reflexivity.
Qed.

(** C3: when the encoder reports an error after the builder has run, the
    build fails with [EncodingError]; the runtime is left in the state it
    had before the build, so nothing was added to it, and nothing is
    announced. *)
Theorem build_function_asm_encoding_error :
  forall (S : Type) (name : string) (builder : Builder S)
         (w : World Runtime S),
    lastError (fst (builder c0 args (user w))) <> kErrorOk ->
    let r := build_function_asm rt_add encode WIN32 name builder w in
    fst r = Failed EncodingError /\
    global_runtime (snd r) = global_runtime w /\
    announced (snd r) = announced w.
Proof.
  intros S name builder w Herr. cbv zeta.
  pose proof (build_function_asm_unfold name builder w) as Hb.
  cbv zeta in Hb. unfold build in Hb. rewrite Hb.
  apply N.eqb_neq in Herr. rewrite Herr. cbn [fst snd global_runtime announced].
  repeat split.
Qed.

(** C7: the builder is handed the four integer argument registers of the
    target's calling convention, in argument order: [rcx, rdx, r8, r9]
    when [_WIN32] is defined and [rdi, rsi, rdx, rcx] otherwise.  A
    builder that logs what it receives ends the build with exactly one
    new log entry, that list. *)
Theorem build_function_asm_args :
  forall (S : Type) (name : string) (builder : Builder S)
         (w : World Runtime S) (seen : list (list X86Gp)),
    let w' := mkWorld (global_runtime w) (announced w) (seen, user w) in
    let r := build_function_asm rt_add encode WIN32 name (observing builder) w' in
    fst (user (snd r)) =
      seen ++ [if WIN32 then [x86.rcx; x86.rdx; x86.r8; x86.r9]
               else [x86.rdi; x86.rsi; x86.rdx; x86.rcx]] /\
    snd (user (snd r)) = snd (builder c0 args (user w)) /\
    fst r = fst (build_function_asm rt_add encode WIN32 name builder w).
Proof.
  intros S name builder w seen. cbv zeta.
  pose proof (build_function_asm_unfold name builder w) as Hb.
  pose proof (build_function_asm_unfold name (observing builder)
                (mkWorld (global_runtime w) (announced w) (seen, user w))) as Ho.
  cbv zeta in Hb, Ho. unfold build in Hb, Ho. rewrite Hb, Ho. clear Hb Ho.
  cbn [user global_runtime announced].
  unfold observing. cbn [fst snd]. fold args.
  destruct (builder c0 args (user w)) as [compiler s]. cbn [fst snd].
  destruct (lastError compiler =? kErrorOk)%N; cbn [fst snd user];
    [destruct (fst (fst (rt_add (global_runtime w) compiler)) =? kErrorOk)%N|];
    cbn [fst snd user]; repeat split.
Qed.

(** C9: when the builder leaves no encoder error and the runtime's [add]
    returns an error, the build returns the null pointer and announces
    nothing; a record is announced only when [add] succeeded, and then it
    is the record of the pointer that is returned. *)
Theorem build_function_asm_add_failure :
  forall (S : Type) (name : string) (builder : Builder S)
         (w : World Runtime S),
    let compiler := fst (builder c0 args (user w)) in
    let added := rt_add (global_runtime w) compiler in
    let r := build_function_asm rt_add encode WIN32 name builder w in
    (lastError compiler = kErrorOk -> fst (fst added) <> kErrorOk ->
       fst r = Returned nullptr /\ announced (snd r) = announced w) /\
    (lastError compiler = kErrorOk -> fst (fst added) = kErrorOk ->
       fst r = Returned (snd (fst added)) /\
       announced (snd r) =
         announced w ++ [(snd (fst added), getCodeSize encode compiler, name)]) /\
    (announced (snd r) <> announced w ->
       lastError compiler = kErrorOk /\ fst (fst added) = kErrorOk).
Proof.
  intros S name builder w. cbv zeta.
  pose proof (build_function_asm_unfold name builder w) as Hb.
  cbv zeta in Hb. unfold build in Hb. rewrite Hb. clear Hb.
  destruct (N.eqb_spec (lastError (fst (builder c0 args (user w)))) kErrorOk)
    as [He|He];
    [destruct (N.eqb_spec
                 (fst (fst (rt_add (global_runtime w)
                              (fst (builder c0 args (user w)))))) kErrorOk)
       as [Ha|Ha]|];
    cbn [fst snd announced]; repeat split; intros; try congruence.
Qed.

Lemma firstn_length_app {A} (l l' : list A) : firstn (List.length l) (l ++ l') = l.
Proof.
  replace (List.length l) with (List.length l + 0)%nat by lia.
  rewrite firstn_app_2. cbn [firstn]. apply app_nil_r.
Qed.

(** C8: a build into the block of a [built_function] object fails with
    [EncodingError] when the encoded size exceeds the capacity [Size];
    whenever it succeeds the function is the start of that block, which
    still has [Size] bytes and begins with the encoded bytes; it succeeds
    when the encoder reported no error and the code fits.  The
    process-wide runtime is not involved in any case. *)
Theorem built_function_capacity :
  forall (S : Type) (Size this_data : N) (block : list Byte.byte)
         (name : string) (builder : Builder S) (w : World Runtime S),
    N.of_nat (List.length block) = Size ->
    let compiler := fst (builder c0 args (user w)) in
    let r := built_function encode WIN32 Size this_data block name builder w in
    ((Size < getCodeSize encode compiler)%N ->
       fst r = Failed EncodingError /\ announced (snd r) = announced w) /\
    (forall f, fst r = Returned f ->
       operator_FT f = ptr this_data /\
       N.of_nat (List.length (bf_data f)) = Size /\
       firstn (List.length (encode compiler)) (bf_data f) = encode compiler /\
       announced (snd r) =
         announced w ++ [(ptr this_data, getCodeSize encode compiler, name)]) /\
    (lastError compiler = kErrorOk ->
     (getCodeSize encode compiler <= Size)%N ->
     exists f, fst r = Returned f) /\
    global_runtime (snd r) = global_runtime w.
Proof.
  intros S Size this_data block name builder w Hlen. cbv zeta.
  unfold built_function, inline_runtime_add, ensure, jit_announce.
  fold args. cbn [m_size m_data].
  destruct (builder c0 args (user w)) as [compiler s]. cbn [fst snd].
  destruct (N.eqb_spec (lastError compiler) kErrorOk) as [He|He];
    cbn [negb fst snd announced global_runtime].
  - destruct (N.ltb_spec Size (getCodeSize encode compiler)) as [Hbig|Hfit];
      cbn [negb fst snd announced global_runtime N.eqb kErrorOk
           kErrorNoVirtualMemory].
    + repeat split; intros; try discriminate; lia.
    + split; [intros; lia|]. split; [|split; [eauto|reflexivity]].
      intros f Hf. injection Hf as <-. cbn [operator_FT bf_addr bf_data].
      unfold getCodeSize in Hfit.
      repeat split.
      * rewrite length_app, length_skipn. lia.
      * apply firstn_length_app.
  - repeat split; intros; try discriminate; congruence.
Qed.
End SessionFacts.

Lemma build_transaction_enter_shape_witness :
  appends sample_func /\
  let r := build_transaction_enter c1 0%nat sample_func tt in
  emitted c1 (snd (fst r)) =
    [Emit (jmp 2%nat); Bind 1%nat; Emit (test x86.eax x86.eax);
     Emit (jz 0%nat); Emit (mov x86.rcx x86.rdx);
     Align kAlignCode 16; Bind 2%nat] /\
  fst (fst r) = 1%nat.
Proof.
  split; [exact sample_func_appends|].
  destruct (build_transaction_enter_shape unit c1 0%nat sample_func tt
              sample_func_appends)
    as (begin & cb & ac & Hseq & _ & Hcb & Hfall & Hbegin & _).
  rewrite (emitted_app ac (fst (sample_func ac tt))
             [Emit (mov x86.rcx x86.rdx)] eq_refl) in Hcb.
  cbv zeta. rewrite Hseq, Hfall, Hbegin, Hcb. split; reflexivity.
Defined.

Lemma build_function_asm_encoding_error_witness :
  let r := build_function_asm sample_add sample_encode false "f"
             failing_builder w0 in
  fst r = Failed EncodingError /\
  global_runtime (snd r) = 0%nat /\
  announced (snd r) = [].
Proof.
  apply (build_function_asm_encoding_error nat sample_add sample_encode false
           unit "f"%string failing_builder w0).
  intros H. vm_compute in H. discriminate H.
Defined.

Lemma build_function_asm_add_failure_witness :
  (let r := build_function_asm sample_add sample_encode false "f"
              sample_builder w_full in
   fst r = Returned nullptr /\ announced (snd r) = []) /\
  (let r := build_function_asm sample_add sample_encode false "f"
              sample_builder w0 in
   fst r = Returned (ptr 4096) /\
   announced (snd r) = [(ptr 4096, 3%N, "f"%string)]).
Proof.
  split.
  - destruct (build_function_asm_add_failure nat sample_add sample_encode false
                unit "f"%string sample_builder w_full) as [Hfail _].
    apply Hfail; [reflexivity|]. intros H. vm_compute in H. discriminate H.
  - destruct (build_function_asm_add_failure nat sample_add sample_encode false
                unit "f"%string sample_builder w0) as [_ [Hok _]].
    apply Hok; reflexivity.
Defined.

Lemma built_function_capacity_witness :
  N.of_nat (List.length block4) = 4%N /\
  (let r := built_function sample_encode false 4 8192 block4 "f"
              sample_builder w0 in
   exists f, fst r = Returned f /\ operator_FT f = ptr 8192 /\
             firstn 3 (bf_data f) = [Byte.x90; Byte.x90; Byte.x90]) /\
  (let r := built_function sample_encode false 2 8192 [Byte.x00; Byte.x00] "f"
              sample_builder w0 in
   fst r = Failed EncodingError).
Proof.
  split; [reflexivity|]. split.
  - destruct (built_function_capacity nat sample_encode false unit 4 8192 block4
                "f"%string sample_builder w0 eq_refl)
      as (_ & Hplaced & Hfits & _).
    destruct Hfits as [f Hf]; [reflexivity | vm_compute; discriminate |].
    exists f. split; [exact Hf|].
    destruct (Hplaced f Hf) as (Hp & _ & Hbytes & _).
    split; [exact Hp | exact Hbytes].
  - destruct (built_function_capacity nat sample_encode false unit 2 8192
                [Byte.x00; Byte.x00] "f"%string sample_builder w0 eq_refl)
      as (Hbig & _).
    apply Hbig. reflexivity.
Defined.

(* ================================================================== *)
(** ** The executable memory arena *)

Section Arena.
Import jit_runtime.
Local Open Scope N_scope.




















End Arena.



(* ================================================================== *)
(** ** Spilling rdx *)

Lemma write_gp_64bit (g : X86Gp) (v : Z) (m : Machine) :
  regs_64bit m -> regs_64bit (write_gp g v m).
Proof.
  intros Hm r. cbn [write_gp gpr]. unfold set_gpr.
  destruct (RegId_eqb r (id g)); [|apply Hm].
  assert (0 <= v mod 2 ^ bits (size g) < 2 ^ bits (size g))
    by (apply Z.mod_pos_bound; destruct (size g); reflexivity).
  destruct (size g); cbn [bits] in *; [|assumption].
  change (2 ^ 64) with (2 ^ 32 * 2 ^ 32). nia.
Qed.

Lemma exec_inst_64bit (i : Inst) (m m' : Machine) :
  regs_64bit m -> exec_inst i m = Some m' -> regs_64bit m'.
Proof.
  intros Hm. destruct i; cbn [exec_inst]; try discriminate;
    repeat match goal with
           | |- context [RegSize_eqb ?a ?b] => destruct (RegSize_eqb a b)
           | |- context [if ?c =? 0 then _ else _] => destruct (c =? 0)
           end;
    intros H; try discriminate; injection H as <-;
    unfold set_zf; cbn [gpr]; repeat apply write_gp_64bit; try assumption;
    intros r; cbn [gpr]; revert r; repeat apply write_gp_64bit; assumption.
Qed.

Lemma exec_straight_64bit (l : list Item) (m m' : Machine) :
  regs_64bit m -> exec_straight l m = Some m' -> regs_64bit m'.
Proof.
  revert m. induction l as [|[i|lb|md n] l IH]; intros m Hm; cbn [exec_straight].
  - intros H. now injection H as <-.
  - destruct (exec_inst i m) as [m1|] eqn:Hi; [|discriminate].
    apply IH. eapply exec_inst_64bit; eassumption.
  - apply IH, Hm.
  - apply IH, Hm.
Qed.

Lemma exec_straight_app (l1 l2 : list Item) (m : Machine) :
  exec_straight (l1 ++ l2) m =
  match exec_straight l1 m with
  | Some m1 => exec_straight l2 m1
  | None => None
  end.
Proof.
  revert m. induction l1 as [|[i|lb|md n] l1 IH]; intros m;
    cbn [app exec_straight]; try apply IH; try reflexivity.
  destruct (exec_inst i m); [apply IH|reflexivity].
Qed.

(** The exchange of two 64-bit registers. *)
Lemma exec_xchg64 (a b : RegId) (m : Machine) :
  regs_64bit m ->
  exists m',
    exec_inst (xchg (mkGp a gpq) (mkGp b gpq)) m = Some m' /\
    gpr m' a = gpr m b /\ gpr m' b = gpr m a /\
    (forall r, r <> a -> r <> b -> gpr m' r = gpr m r) /\
    zf m' = zf m /\ tsc m' = tsc m.
Proof.
  intros Hm. eexists. split; [reflexivity|].
  cbn [read_gp write_gp size id gpr bits zf tsc]. unfold set_gpr.
  rewrite !(wrap64_id _ (Hm _)).
  repeat split.
  - destruct a, b; reflexivity.
  - destruct b; reflexivity.
  - intros r Ha Hb. destruct r, a, b; try reflexivity; congruence.
Qed.

Lemma emitted_inst (c : X86Assembler) (i : Inst) :
  emitted c (inst i c) = [Emit i].
Proof. apply emitted_app. reflexivity. Qed.

Lemma exec_straight_single (i : Inst) (m : Machine) :
  exec_straight [Emit i] m = exec_inst i m.
Proof. cbn [exec_straight]. destruct (exec_inst i m); reflexivity. Qed.

(** What [build_swap_rdx_with] does to the argument array of a build
    session: the slot it rewrites is the one that holds [rdx]. *)
Lemma build_swap_rdx_with_session (WIN32 : bool) (c : X86Assembler)
    (with_ : X86Gp) :
  build_swap_rdx_with WIN32 c
    (if WIN32 then [x86.rcx; x86.rdx; x86.r8; x86.r9]
     else [x86.rdi; x86.rsi; x86.rdx; x86.rcx]) with_ =
  (inst (xchg x86.rdx with_) c,
   if WIN32 then [x86.rcx; with_; x86.r8; x86.r9]
   else [x86.rdi; x86.rsi; with_; x86.rcx]).
Proof. destruct WIN32; reflexivity. Qed.

(** X1: applied to the argument registers of a build session, on either
    platform, [build_swap_rdx_with] exchanges [rdx] itself with the chosen
    64-bit register and renames that slot.  If the chosen register is not
    one of the other three argument registers, then after the emitted
    exchange every argument's value is found in the register the updated
    array names for it, [rdx] holds the chosen register's old contents, no
    other register changed, and the array no longer names [rdx]. *)
Theorem build_swap_rdx_with_frees_rdx :
  forall (WIN32 : bool) (c : X86Assembler) (with_ : X86Gp) (m : Machine),
    let args := if WIN32 then [x86.rcx; x86.rdx; x86.r8; x86.r9]
                else [x86.rdi; x86.rsi; x86.rdx; x86.rcx] in
    let r := build_swap_rdx_with WIN32 c args with_ in
    size with_ = gpq ->
    (forall g, In g args -> id g = id with_ -> g = x86.rdx) ->
    regs_64bit m ->
    exists m',
      exec_straight (emitted c (fst r)) m = Some m' /\
      List.length (snd r) = 4%nat /\
      (forall k, (k < 4)%nat ->
         gpr m' (id (nth k (snd r) x86.rax)) = gpr m (id (nth k args x86.rax))) /\
      gpr m' RDX = gpr m (id with_) /\
      (forall r0, r0 <> RDX -> r0 <> id with_ -> gpr m' r0 = gpr m r0) /\
      (id with_ <> RDX -> ~ In RDX (ids (snd r))).
Proof.
  intros WIN32 c [w s] m args r Hsize Hpre Hm. cbn [size] in Hsize. subst s.
  unfold r, args. rewrite build_swap_rdx_with_session. cbn [fst snd].
  rewrite emitted_inst, exec_straight_single.
  destruct (exec_xchg64 RDX w m Hm) as (m' & Hex & Hrdx & Hw & Hframe & _).
  exists m'. cbn [id] in *.
  split; [exact Hex|].
  assert (Hother : forall x, In (mkGp x gpq) args -> x <> RDX -> x <> w).
  { intros x Hin Hx ->. specialize (Hpre _ Hin eq_refl).
    injection Hpre as Hpre. contradiction. }
  split; [destruct WIN32; reflexivity|].
  split; [|split; [exact Hrdx|split; [exact Hframe|]]].
  - intros k Hk. unfold args in Hother.
    destruct WIN32;
      destruct k as [|[|[|[|k]]]]; try lia; cbn [nth id x86.rcx x86.rdx x86.r8
        x86.r9 x86.rdi x86.rsi]; try exact Hw;
      (apply Hframe; [discriminate|]);
      apply Hother; try discriminate; cbn; tauto.
  - intros Hne Hin. unfold ids in Hin. unfold args in Hother.
    destruct WIN32; cbn in Hin;
      repeat (destruct Hin as [Hin|Hin]; try discriminate; try congruence).
Qed.

Lemma build_swap_rdx_with_frees_rdx_witness :
  let r := build_swap_rdx_with false c0
             [x86.rdi; x86.rsi; x86.rdx; x86.rcx] x86.r10 in
  snd r = [x86.rdi; x86.rsi; x86.r10; x86.rcx] /\
  exists m',
    exec_straight (emitted c0 (fst r)) m0 = Some m' /\
    gpr m' R10 = 2 /\ gpr m' RDX = 3.
Proof.
  cbv zeta. split; [reflexivity|].
  destruct (build_swap_rdx_with_frees_rdx false c0 x86.r10 m0 eq_refl)
    as (m' & Hrun & _ & Hargs & Hrdx & _).
  - intros g Hin Hid. cbn in Hin.
    destruct Hin as [<-|[<-|[<-|[<-|[]]]]]; try discriminate Hid; reflexivity.
  - exact m0_regs_64bit.
  - exists m'. split; [exact Hrun|]. split.
    + exact (Hargs 2%nat ltac:(lia)).
    + exact Hrdx.
Defined.

(** X2: exchanging [rdx] with a 64-bit register through
    [build_swap_rdx_with] and then calling it again with [x86::rdx] undoes
    the spill: the argument array of the session is back to what it was,
    and running the two emitted exchanges leaves every register as it
    found it. *)
Theorem build_swap_rdx_with_round_trip :
  forall (WIN32 : bool) (c : X86Assembler) (with_ : X86Gp) (m : Machine),
    let args := if WIN32 then [x86.rcx; x86.rdx; x86.r8; x86.r9]
                else [x86.rdi; x86.rsi; x86.rdx; x86.rcx] in
    let r1 := build_swap_rdx_with WIN32 c args with_ in
    let r2 := build_swap_rdx_with WIN32 (fst r1) (snd r1) x86.rdx in
    size with_ = gpq ->
    regs_64bit m ->
    snd r2 = args /\
    exists m',
      exec_straight (emitted c (fst r2)) m = Some m' /\
      forall r0, gpr m' r0 = gpr m r0.
Proof.
  intros WIN32 c [w s] m args r1 r2 Hsize Hm. cbn [size] in Hsize. subst s.
  assert (H1 : r1 = (inst (xchg x86.rdx (mkGp w gpq)) c,
                     if WIN32 then [x86.rcx; mkGp w gpq; x86.r8; x86.r9]
                     else [x86.rdi; x86.rsi; mkGp w gpq; x86.rcx]))
    by apply build_swap_rdx_with_session.
  assert (H2 : r2 = (inst (xchg (mkGp w gpq) x86.rdx) (fst r1), args)).
  { unfold r2. rewrite H1. cbn [fst snd]. destruct WIN32; reflexivity. }
  rewrite H2, H1. cbn [fst snd]. split; [reflexivity|].
  rewrite (emitted_app c _ [Emit (xchg x86.rdx (mkGp w gpq));
                            Emit (xchg (mkGp w gpq) x86.rdx)])
    by (cbn [inst emit code]; rewrite <- app_assoc; reflexivity).
  change [Emit (xchg x86.rdx (mkGp w gpq)); Emit (xchg (mkGp w gpq) x86.rdx)]
    with ([Emit (xchg x86.rdx (mkGp w gpq))] ++ [Emit (xchg (mkGp w gpq) x86.rdx)]).
  rewrite exec_straight_app, exec_straight_single.
  destruct (exec_xchg64 RDX w m Hm) as (m1 & Hex1 & Hrdx1 & Hw1 & Hframe1 & _).
  unfold x86.rdx. rewrite Hex1, exec_straight_single.
  assert (Hm1 : regs_64bit m1) by (eapply exec_inst_64bit; eassumption).
  destruct (exec_xchg64 w RDX m1 Hm1) as (m2 & Hex2 & Hw2 & Hrdx2 & Hframe2 & _).
  exists m2. split; [exact Hex2|].
  intros r0.
  destruct (RegId_eqb r0 RDX) eqn:Ed; [destruct r0; try discriminate|].
  - rewrite Hrdx2. exact Hw1.
  - destruct (RegId_eqb r0 w) eqn:Ew.
    + assert (r0 = w) by (destruct r0, w; try discriminate; reflexivity).
      subst r0. rewrite Hw2. exact Hrdx1.
    + assert (r0 <> RDX) by (intros ->; discriminate).
      assert (r0 <> w) by (intros ->; destruct w; discriminate).
      rewrite Hframe2 by assumption. apply Hframe1; assumption.
Qed.

Lemma build_swap_rdx_with_round_trip_witness :
  let r1 := build_swap_rdx_with true c0
              [x86.rcx; x86.rdx; x86.r8; x86.r9] x86.r10 in
  let r2 := build_swap_rdx_with true (fst r1) (snd r1) x86.rdx in
  snd r2 = [x86.rcx; x86.rdx; x86.r8; x86.r9] /\
  exists m',
    exec_straight (emitted c0 (fst r2)) m0 = Some m' /\
    forall r0, gpr m' r0 = gpr m0 r0.
Proof.
  exact (build_swap_rdx_with_round_trip true c0 x86.r10 m0 eq_refl m0_regs_64bit).
Defined.

(* ================================================================== *)
(** ** The timestamp read next to other code *)

Ltac norm_frame Hm :=
  repeat first
    [ rewrite mod32_mod64
    | rewrite mod32_mod32
    | rewrite mod64_mod64
    | rewrite (wrap64_id _ (Hm _)) ].

Ltac get_tsc_effect_case Hm :=
  eexists; split;
  [ run_machine;
    rewrite (proj1 shl32_count), (proj2 shl32_count); run_machine; reflexivity
  | run_machine; split; [|split];
    [ let Ht := fresh "Ht" in
      intros Ht ?; try congruence; norm_regs Ht Hm; reflexivity
    | let r := fresh "r" in
      intros r ? ? ?; destruct r; try congruence; run_machine;
      norm_frame Hm; reflexivity
    | intros ? ?; try congruence; norm_frame Hm; reflexivity ] ].

(** The effect of the emitted timestamp read for any 64-bit destination,
    copies of the native registers included. *)
Lemma build_get_tsc_effect :
  forall (c : X86Assembler) (to : GpRef) (m : Machine),
    size (deref to) = gpq ->
    regs_64bit m ->
    exists m',
      exec_straight (emitted c (build_get_tsc c to)) m = Some m' /\
      (0 <= tsc m < 2 ^ 64 -> id (deref to) <> RDX ->
       gpr m' (id (deref to)) = tsc m) /\
      (forall r, r <> id (deref to) -> r <> RAX -> r <> RDX ->
                 gpr m' r = gpr m r) /\
      (id (deref to) <> RAX -> id (deref to) <> RDX ->
       gpr m' RAX = gpr m RAX).
Proof.
  intros c to m Hsize Hm.
  rewrite (emitted_app _ _ _ (build_get_tsc_code c to)).
  destruct m as [g z t]. unfold regs_64bit in Hm. cbn [gpr tsc] in *.
  destruct to as [[i s]|[i s]]; cbn [deref size] in Hsize; subst s;
    destruct i; cbn [same_object X86Gp_eqb RegId_eqb RegSize_eqb andb id size
                     x86.rax x86.rdx];
    get_tsc_effect_case Hm.
Qed.

(** X3: for every 64-bit destination operand, whether it is one of the
    library's register constants or a copy, the sequence emitted by
    [build_get_tsc] runs to its end, leaves every register holding a 64-bit
    value, and changes no register other than the destination, [rax] and
    [rdx]. *)
Theorem build_get_tsc_touches_only :
  forall (c : X86Assembler) (to : GpRef) (m : Machine),
    size (deref to) = gpq ->
    regs_64bit m ->
    exists m',
      exec_straight (emitted c (build_get_tsc c to)) m = Some m' /\
      regs_64bit m' /\
      forall r, r <> id (deref to) -> r <> RAX -> r <> RDX ->
                gpr m' r = gpr m r.
Proof.
  intros c to m Hsize Hm.
  destruct (build_get_tsc_effect c to m Hsize Hm) as (m' & Hrun & _ & Hframe & _).
  exists m'. split; [exact Hrun|]. split; [|exact Hframe].
  eapply exec_straight_64bit; eassumption.
Qed.

Lemma build_get_tsc_touches_only_witness :
  exists m',
    exec_straight (emitted c0 (build_get_tsc c0 (Object x86.rdx))) m0 = Some m' /\
    regs_64bit m' /\
    forall r, r <> RDX -> r <> RAX -> r <> RDX -> gpr m' r = gpr m0 r.
Proof.
  exact (build_get_tsc_touches_only c0 (Object x86.rdx) m0 eq_refl m0_regs_64bit).
Defined.

Lemma emitted_trans (c c1 c2 : X86Assembler) (l1 l2 : list Item) :
  code c1 = code c ++ l1 -> code c2 = code c1 ++ l2 ->
  emitted c c2 = l1 ++ l2.
Proof.
  intros H1 H2. apply emitted_app. rewrite H2, H1. now rewrite app_assoc.
Qed.

(** X4: spilling [rdx] and then reading the timestamp keeps the arguments
    of the session.  On either platform, after [build_swap_rdx_with] with a
    64-bit register other than [rdx] that is not one of the other argument
    registers, and [build_get_tsc] into a 64-bit destination that is neither
    [rdx] nor named by the updated array, the emitted code leaves the full
    counter in the destination and every argument's value in the register
    the updated array names for it. *)
Theorem build_get_tsc_after_swap_keeps_args :
  forall (WIN32 : bool) (c : X86Assembler) (with_ : X86Gp) (to : GpRef)
         (m : Machine),
    let args := if WIN32 then [x86.rcx; x86.rdx; x86.r8; x86.r9]
                else [x86.rdi; x86.rsi; x86.rdx; x86.rcx] in
    let r1 := build_swap_rdx_with WIN32 c args with_ in
    let c2 := build_get_tsc (fst r1) to in
    size with_ = gpq ->
    id with_ <> RDX ->
    (forall g, In g args -> id g = id with_ -> g = x86.rdx) ->
    size (deref to) = gpq ->
    id (deref to) <> RDX ->
    ~ In (id (deref to)) (ids (snd r1)) ->
    regs_64bit m ->
    0 <= tsc m < 2 ^ 64 ->
    exists m',
      exec_straight (emitted c c2) m = Some m' /\
      gpr m' (id (deref to)) = tsc m /\
      forall k, (k < 4)%nat ->
        gpr m' (id (nth k (snd r1) x86.rax)) = gpr m (id (nth k args x86.rax)).
Proof.
  intros WIN32 c [w s] to m args r1 c2 Hsize Hw Hpre Hto Hnrdx Hnin Hm Ht.
  cbn [size id] in Hsize, Hw. subst s.
  assert (H1 : r1 = (inst (xchg x86.rdx (mkGp w gpq)) c,
                     if WIN32 then [x86.rcx; mkGp w gpq; x86.r8; x86.r9]
                     else [x86.rdi; x86.rsi; mkGp w gpq; x86.rcx]))
    by apply build_swap_rdx_with_session.
  unfold c2. rewrite H1 in *. cbn [fst snd] in *.
  erewrite (emitted_trans c (inst (xchg x86.rdx (mkGp w gpq)) c) _
              [Emit (xchg x86.rdx (mkGp w gpq))]);
    [|reflexivity|apply build_get_tsc_code].
  rewrite exec_straight_app, exec_straight_single.
  destruct (exec_xchg64 RDX w m Hm) as (m1 & Hex1 & Hrdx1 & Hw1 & Hframe1 & _ & Htsc1).
  unfold x86.rdx at 1. rewrite Hex1.
  assert (Hm1 : regs_64bit m1) by (eapply exec_inst_64bit; eassumption).
  destruct (build_get_tsc_effect (inst (xchg x86.rdx (mkGp w gpq)) c) to m1 Hto Hm1)
    as (m' & Hrun & Hdest & Hframe & Hrax).
  rewrite (emitted_app _ _ _ (build_get_tsc_code _ to)) in Hrun.
  exists m'. split; [exact Hrun|].
  rewrite Htsc1 in Hdest. split; [apply Hdest; assumption|].
  assert (Hother : forall x, In (mkGp x gpq) args -> x <> RDX -> x <> w).
  { intros x Hin Hx ->. specialize (Hpre _ Hin eq_refl).
    injection Hpre as Hpre. contradiction. }
  assert (Hkeep : forall x, x <> RDX -> x <> id (deref to) ->
                            gpr m' x = gpr m1 x).
  { intros x Hx Hd.
    destruct (RegId_eqb x RAX) eqn:Ea.
    - assert (x = RAX) by (destruct x; try discriminate; reflexivity). subst x.
      apply Hrax; [congruence|assumption].
    - apply Hframe; try assumption; try congruence.
      intros ->. discriminate. }
  intros k Hk. unfold args in Hother. unfold ids in Hnin.
  destruct WIN32;
    destruct k as [|[|[|[|k]]]]; try lia;
    cbn [nth id x86.rcx x86.rdx x86.r8 x86.r9 x86.rdi x86.rsi map] in *;
    (rewrite Hkeep;
       [|try discriminate; try assumption
        |intros He; apply Hnin; rewrite <- He; cbn [In]; tauto]);
    try exact Hw1;
    (apply Hframe1; [discriminate|]);
    apply Hother; try discriminate; cbn; tauto.
Qed.

Lemma build_get_tsc_after_swap_keeps_args_witness :
  let r1 := build_swap_rdx_with false c0
              [x86.rdi; x86.rsi; x86.rdx; x86.rcx] x86.r10 in
  exists m',
    exec_straight (emitted c0 (build_get_tsc (fst r1) (Const x86.rax))) m0
      = Some m' /\
    gpr m' RAX = 5 * 2 ^ 32 + 9 /\
    gpr m' R10 = 2.
Proof.
  cbv zeta.
  destruct (build_get_tsc_after_swap_keeps_args false c0 x86.r10 (Const x86.rax) m0)
    as (m' & Hrun & Hdest & Hargs).
  - reflexivity.
  - discriminate.
  - intros g Hin Hid. cbn in Hin.
    destruct Hin as [<-|[<-|[<-|[<-|[]]]]]; try discriminate Hid; reflexivity.
  - reflexivity.
  - discriminate.
  - cbn. intros [H|[H|[H|[H|[]]]]]; discriminate H.
  - exact m0_regs_64bit.
  - vm_compute; split; congruence.
  - exists m'. split; [exact Hrun|]. split; [exact Hdest|].
    exact (Hargs 2%nat ltac:(lia)).
Defined.




(** X11: the address tests of [build_get_tsc] do not recognise a copy of
    [rdx].  For a destination that is an object other than the constant
    [x86::rdx] but holds [rdx], in every machine state the emitted sequence
    leaves only the low 32 bits of the counter in [rdx] and the high half,
    shifted left by 32, in [rax]; so the destination differs from the
    counter as soon as the counter does not fit in 32 bits. *)
Theorem build_get_tsc_copy_of_rdx :
  forall (c : X86Assembler) (m : Machine),
    regs_64bit m ->
    0 <= tsc m < 2 ^ 64 ->
    exists m',
      exec_straight (emitted c (build_get_tsc c (Object x86.rdx))) m = Some m' /\
      gpr m' RDX = tsc m mod 2 ^ 32 /\
      gpr m' RAX = Z.shiftl (Z.shiftr (tsc m) 32) 32 /\
      (2 ^ 32 <= tsc m -> gpr m' RDX <> tsc m).
Proof.
  intros c m Hm Ht.
  rewrite (emitted_app _ _ _ (build_get_tsc_code c (Object x86.rdx))).
  destruct m as [g z t]. unfold regs_64bit in Hm. cbn [gpr tsc] in *.
  cbn [same_object deref].
  eexists. split.
  - run_machine. rewrite (proj1 shl32_count), (proj2 shl32_count).
    run_machine. reflexivity.
  - run_machine. norm_regs Ht Hm. rewrite Z.lor_diag, mod32_mod64.
    split; [reflexivity|]. split; [reflexivity|].
    intros Hbig Heq.
    assert (0 <= t mod 2 ^ 32 < 2 ^ 32) by (apply Z.mod_pos_bound; reflexivity).
    lia.
Qed.

Lemma build_get_tsc_copy_of_rdx_witness :
  exists m',
    exec_straight (emitted c0 (build_get_tsc c0 (Object x86.rdx))) m0 = Some m' /\
    gpr m' RDX = (5 * 2 ^ 32 + 9) mod 2 ^ 32 /\
    gpr m' RAX = Z.shiftl (Z.shiftr (5 * 2 ^ 32 + 9) 32) 32 /\
    (2 ^ 32 <= 5 * 2 ^ 32 + 9 -> gpr m' RDX <> 5 * 2 ^ 32 + 9).
Proof.
  apply (build_get_tsc_copy_of_rdx c0 m0 m0_regs_64bit).
  vm_compute; split; congruence.
Defined.

(* ================================================================== *)
(** ** The retry path of the transactional entry *)

Lemma steps_app (a b : nat) (prog : list Item) (cfg : nat * Machine) :
  steps (a + b) prog cfg =
  match steps a prog cfg with
  | Some cfg' => steps b prog cfg'
  | None => None
  end.
Proof.
  revert cfg. induction a as [|a IH]; intros cfg; cbn [Nat.add steps].
  - reflexivity.
  - destruct (step prog cfg); [apply IH|reflexivity].
Qed.

(** Straight-line code runs the same under the stepping semantics. *)
Lemma steps_straight :
  forall (l prog : list Item) (pc : nat) (m m' : Machine),
    (forall k, (k < List.length l)%nat ->
               nth_error prog (pc + k) = nth_error l k) ->
    exec_straight l m = Some m' ->
    steps (List.length l) prog (pc, m) = Some ((pc + List.length l)%nat, m').
Proof.
  induction l as [|it l IH]; intros prog pc m m' Hat Hrun.
  - cbn in *. injection Hrun as <-. now rewrite Nat.add_0_r.
  - assert (Hhead : nth_error prog pc = Some it).
    { specialize (Hat 0%nat ltac:(cbn; lia)). now rewrite Nat.add_0_r in Hat. }
    assert (Htail : forall k, (k < List.length l)%nat ->
                              nth_error prog (Datatypes.S pc + k) = nth_error l k).
    { intros k Hk. specialize (Hat (Datatypes.S k) ltac:(cbn; lia)).
      cbn [nth_error] in Hat. rewrite <- Hat. f_equal. lia. }
    cbn [List.length steps]. unfold step at 1. rewrite Hhead.
    replace (pc + Datatypes.S (List.length l))%nat
      with (Datatypes.S pc + List.length l)%nat by lia.
    destruct it as [i|lb|md n]; cbn [exec_straight] in Hrun.
    + destruct (exec_inst i m) as [m1|] eqn:Hi; [|discriminate].
      destruct i; cbn [exec_inst] in Hi; try discriminate;
        cbn [exec_inst]; rewrite ?Hi; apply IH; assumption.
    + apply IH; assumption.
    + apply IH; assumption.
Qed.

(** X6: the retry path.  In the code emitted by [build_transaction_enter],
    when execution enters the landing pad with a non-zero abort status and
    the callback's code is straight-line code that runs from there to a
    state [m'], control falls through that code, the alignment and the
    start label, and arrives right behind the emitted sequence (where the
    caller places its transaction begin) in state [m']. *)
Theorem build_transaction_enter_retry :
  forall (S : Type) (c : X86Assembler) (fallback : Label)
         (func : Callback S) (s : S),
    appends func ->
    let r := build_transaction_enter c fallback func s in
    let c' := snd (fst r) in
    let pad := (List.length (code c) + 1)%nat in
    exists (cb : list Item) (at_call : X86Assembler),
      code at_call = firstn (pad + 3) (code c') /\
      cb = emitted at_call (fst (func at_call s)) /\
      forall (rest : list Item) (m m' : Machine),
        read_gp m x86.eax <> 0 ->
        exec_straight cb (set_zf false m) = Some m' ->
        steps (3 + (List.length cb + 2)) (code c' ++ rest) (pad, m) =
        Some (List.length (code c'), m').
Proof.
  intros S c fallback func s Happ.
  set (pre := [Emit (jmp (Datatypes.S (labels c))); Bind (labels c);
               Emit (test x86.eax x86.eax); Emit (jz fallback)]).
  set (ac := mkAsm (code c ++ pre) (Datatypes.S (Datatypes.S (labels c))) (lastError c)).
  destruct (Happ ac s) as [cb Hcb].
  pose proof (build_transaction_enter_code c fallback func s cb Hcb) as Hcode.
  cbv zeta. exists cb, ac. rewrite Hcode.
  set (post := [Align kAlignCode 16; Bind (Datatypes.S (labels c))]).
  split; [|split].
  - rewrite app_assoc.
    replace (List.length (code c) + 1 + 3)%nat
      with (List.length (code c ++ pre) + 0)%nat
      by (rewrite length_app; cbn [List.length pre]; lia).
    rewrite firstn_app_2. cbn [firstn]. rewrite app_nil_r. reflexivity.
  - symmetry. apply emitted_app. exact Hcb.
  - intros rest m m' Hnz Hrun. fold pre.
    set (prog := (code c ++ pre ++ cb ++ post) ++ rest).
    assert (Hprog : prog = code c ++ pre ++ (cb ++ post) ++ rest).
    { unfold prog. repeat rewrite <- app_assoc. reflexivity. }
    assert (H0 : nth_error prog (List.length (code c) + 1) = Some (Bind (labels c))).
    { rewrite Hprog, nth_error_after. reflexivity. }
    assert (H1 : nth_error prog (Datatypes.S (List.length (code c) + 1))
                 = Some (Emit (test x86.eax x86.eax))).
    { rewrite Hprog. replace (Datatypes.S (List.length (code c) + 1))
        with (List.length (code c) + 2)%nat by lia.
      rewrite nth_error_after. reflexivity. }
    assert (H2 : nth_error prog (Datatypes.S (Datatypes.S (List.length (code c) + 1)))
                 = Some (Emit (jz fallback))).
    { rewrite Hprog.
      replace (Datatypes.S (Datatypes.S (List.length (code c) + 1)))
        with (List.length (code c) + 3)%nat by lia.
      rewrite nth_error_after. reflexivity. }
    rewrite steps_app. cbn [steps].
    unfold step at 1. rewrite H0.
    unfold step at 1. rewrite H1, test_self_zf.
    apply Z.eqb_neq in Hnz. rewrite Hnz.
    unfold step at 1. rewrite H2. cbn [set_zf zf].
    replace (List.length cb + 2)%nat with (List.length (cb ++ post))
      by (rewrite length_app; reflexivity).
    rewrite (steps_straight (cb ++ post) prog _ (set_zf false m) m').
    + f_equal. f_equal. repeat rewrite length_app. cbn [List.length pre]. lia.
    + intros k Hk.
      replace (Datatypes.S (Datatypes.S (Datatypes.S (List.length (code c) + 1))) + k)%nat
        with (List.length (code c ++ pre) + k)%nat
        by (rewrite length_app; cbn [List.length pre]; lia).
      rewrite Hprog, app_assoc, nth_error_after.
      apply nth_error_app1. exact Hk.
    + rewrite exec_straight_app. unfold set_zf in Hrun |- *. rewrite Hrun.
      reflexivity.
Qed.

Lemma build_transaction_enter_retry_witness :
  appends sample_func /\
  let r := build_transaction_enter c1 0%nat sample_func tt in
  exists m',
    exec_straight [Emit (mov x86.rcx x86.rdx)] (set_zf false m0) = Some m' /\
    steps 6 (code (snd (fst r)) ++ [Emit (xbegin 1%nat)]) (1%nat, m0)
      = Some (7%nat, m') /\
    gpr m' RCX = 2.
Proof.
  split; [exact sample_func_appends|]. cbv zeta.
  destruct (build_transaction_enter_retry unit c1 0%nat sample_func tt
              sample_func_appends) as (cb & ac & _ & Hcb & Hretry).
  rewrite (emitted_app ac (fst (sample_func ac tt))
             [Emit (mov x86.rcx x86.rdx)] eq_refl) in Hcb.
  subst cb.
  eexists. split; [reflexivity|]. split; [|reflexivity].
  apply (Hretry [Emit (xbegin 1%nat)] m0); [discriminate|reflexivity].
Defined.

Lemma sample_func_keeps_labels : keeps_labels sample_func.
Proof. intros c s. cbn. lia. Defined.

(** X7: the labels of [build_transaction_enter] are new.  If the callback
    never lowers the assembler's label count, the returned landing-pad
    label is none of the labels created before the call, and a second call
    on the resulting assembler returns a landing pad beyond both labels of
    the first, so successive landing pads never coincide. *)
Theorem build_transaction_enter_fresh_labels :
  forall (S : Type) (c : X86Assembler) (fallback1 fallback2 : Label)
         (func1 func2 : Callback S) (s : S),
    keeps_labels func1 ->
    let r1 := build_transaction_enter c fallback1 func1 s in
    let r2 := build_transaction_enter (snd (fst r1)) fallback2 func2 (snd r1) in
    (labels c <= fst (fst r1))%nat /\
    (fst (fst r1) + 2 <= fst (fst r2))%nat /\
    fst (fst r1) <> fst (fst r2).
Proof.
  intros S c fallback1 fallback2 func1 func2 s Hkeep. cbv zeta.
  rewrite (build_transaction_enter_unfold (snd (fst (build_transaction_enter c fallback1 func1 s)))).
  rewrite (build_transaction_enter_unfold c fallback1 func1 s).
  cbn [fst snd bind align emit labels].
  match goal with
  | |- context [func1 ?ac s] => pose proof (Hkeep ac s) as Hk
  end.
  cbn [labels] in Hk. repeat split; lia.
Qed.

Lemma build_transaction_enter_fresh_labels_witness :
  keeps_labels sample_func /\
  let r1 := build_transaction_enter c1 0%nat sample_func tt in
  let r2 := build_transaction_enter (snd (fst r1)) 0%nat sample_func (snd r1) in
  fst (fst r1) = 1%nat /\ fst (fst r2) = 3%nat /\ fst (fst r1) <> fst (fst r2).
Proof.
  split; [exact sample_func_keeps_labels|]. cbv zeta.
  split; [reflexivity|]. split; [reflexivity|].
  apply (build_transaction_enter_fresh_labels unit c1 0%nat 0%nat
           sample_func sample_func tt sample_func_keeps_labels).
Defined.

(* ================================================================== *)
(** ** The other build paths *)

Section MoreSessionFacts.
Variable Runtime : Type.
Variable rt_add : Runtime -> X86Assembler -> Error * pointer * Runtime.
Variable encode : X86Assembler -> list Byte.byte.
Variable WIN32 : bool.

(** X8: the constructor of [built_function] (inline buffer) calls its
    builder exactly once, on a fresh assembler, with the same four argument
    registers as [build_function_asm]: [rcx, rdx, r8, r9] when [_WIN32] is
    defined and [rdi, rsi, rdx, rcx] otherwise.  A builder that logs what it
    receives ends with exactly one new log entry, whatever the outcome. *)
Theorem built_function_args :
  forall (S : Type) (Size this_data : N) (block : list Byte.byte)
         (name : string) (builder : Builder S) (w : World Runtime S)
         (seen : list (list X86Gp)),
    let args := if WIN32 then [x86.rcx; x86.rdx; x86.r8; x86.r9]
                else [x86.rdi; x86.rsi; x86.rdx; x86.rcx] in
    let w' := mkWorld (global_runtime w) (announced w) (seen, user w) in
    let r := built_function encode WIN32 Size this_data block name
               (observing builder) w' in
    fst (user (snd r)) = seen ++ [args] /\
    snd (user (snd r)) = snd (builder c0 args (user w)) /\
    fst r = fst (built_function encode WIN32 Size this_data block name builder w).
Proof.
  intros S Size this_data block name builder w seen. cbv zeta.
  unfold built_function, inline_runtime_add, ensure, jit_announce, observing.
  cbn [user global_runtime announced fst snd m_size m_data].
  destruct (builder c0 _ (user w)) as [compiler s]. cbn [fst snd].
  destruct (lastError compiler =? kErrorOk)%N; cbn [negb fst snd user];
    [destruct (Size <? getCodeSize encode compiler)%N|];
    cbn [negb fst snd user N.eqb kErrorOk kErrorNoVirtualMemory];
    repeat split.
Qed.

(** X9: an encoder error fails the construction of a [built_function]
    whatever the capacity: when the builder leaves a non-zero last error,
    the outcome is [EncodingError] for every [Size] and every block
    content, nothing is announced, the global runtime is as before and the
    builder's captured state is the one its single run produced. *)
Theorem built_function_encoding_error :
  forall (S : Type) (Size this_data : N) (block : list Byte.byte)
         (name : string) (builder : Builder S) (w : World Runtime S),
    let args := if WIN32 then [x86.rcx; x86.rdx; x86.r8; x86.r9]
                else [x86.rdi; x86.rsi; x86.rdx; x86.rcx] in
    lastError (fst (builder c0 args (user w))) <> kErrorOk ->
    let r := built_function encode WIN32 Size this_data block name builder w in
    fst r = Failed EncodingError /\
    announced (snd r) = announced w /\
    global_runtime (snd r) = global_runtime w /\
    user (snd r) = snd (builder c0 args (user w)).
Proof.
  intros S Size this_data block name builder w args Herr. cbv zeta.
  unfold built_function, ensure. fold args.
  destruct (builder c0 args (user w)) as [compiler s]. cbn [fst snd] in *.
  apply N.eqb_neq in Herr. rewrite Herr. cbn [negb fst snd announced
    global_runtime user]. repeat split.
Qed.

(** X10: the [__APPLE__] variant of the constructor, in terms of the
    builder and the runtime's [add].  It yields a function only when the
    encoder reported no error, [add] succeeded and the pointer it produced
    is not null, and then that pointer was announced.  It fails on an
    encoder error and when [add] fails, announcing nothing; and when [add]
    succeeds with a null pointer it fails although the record was already
    announced. *)
Theorem built_function_apple_never_null :
  forall (S : Type) (name : string) (builder : Builder S)
         (w : World Runtime S),
    let args := if WIN32 then [x86.rcx; x86.rdx; x86.r8; x86.r9]
                else [x86.rdi; x86.rsi; x86.rdx; x86.rcx] in
    let compiler := fst (builder c0 args (user w)) in
    let added := rt_add (global_runtime w) compiler in
    let result := snd (fst added) in
    let record := (result, getCodeSize encode compiler, name) in
    let r := built_function_apple Runtime rt_add encode WIN32 name builder w in
    (forall p, fst r = Returned p ->
       is_null p = false /\ p = result /\
       lastError compiler = kErrorOk /\ fst (fst added) = kErrorOk /\
       announced (snd r) = announced w ++ [record]) /\
    (lastError compiler <> kErrorOk ->
       fst r = Failed EncodingError /\ announced (snd r) = announced w /\
       global_runtime (snd r) = global_runtime w) /\
    (lastError compiler = kErrorOk -> fst (fst added) <> kErrorOk ->
       fst r = Failed EncodingError /\ announced (snd r) = announced w) /\
    (lastError compiler = kErrorOk -> fst (fst added) = kErrorOk ->
       is_null result = true ->
       fst r = Failed EncodingError /\
       announced (snd r) = announced w ++ [record]) /\
    (lastError compiler = kErrorOk -> fst (fst added) = kErrorOk ->
       is_null result = false ->
       fst r = Returned result).
Proof.
  intros S name builder w. cbv zeta.
  unfold built_function_apple.
  pose proof (build_function_asm_unfold Runtime rt_add encode WIN32 name builder w)
    as Hb.
  cbv zeta in Hb. rewrite Hb. clear Hb.
  set (compiler := fst (builder c0
              (if WIN32 then [x86.rcx; x86.rdx; x86.r8; x86.r9]
               else [x86.rdi; x86.rsi; x86.rdx; x86.rcx]) (user w))).
  set (added := rt_add (global_runtime w) compiler).
  destruct (N.eqb_spec (lastError compiler) kErrorOk) as [He|He].
  - destruct (N.eqb_spec (fst (fst added)) kErrorOk) as [Ha|Ha].
    + unfold ensure.
      destruct (is_null (snd (fst added))) eqn:Hn;
        cbn [negb fst snd announced global_runtime].
      * split; [intros p Hp; discriminate Hp|].
        repeat split; intros; congruence.
      * split; [intros p Hp; injection Hp as <-; repeat split; assumption|].
        repeat split; intros; congruence.
    + unfold ensure. cbn [is_null negb fst snd announced global_runtime].
      split; [intros p Hp; discriminate Hp|].
      repeat split; intros; congruence.
  - cbn [fst snd announced global_runtime].
    split; [intros p Hp; discriminate Hp|].
    repeat split; intros; congruence.
Qed.
End MoreSessionFacts.

Lemma built_function_encoding_error_witness :
  let r := built_function sample_encode false 4 8192 block4 "f"
             failing_builder w0 in
  fst r = Failed EncodingError /\ announced (snd r) = [].
Proof.
  destruct (built_function_encoding_error nat sample_encode false unit 4 8192
              block4 "f"%string failing_builder w0) as (Hf & Ha & _).
  - intros H. vm_compute in H. discriminate H.
  - split; assumption.
Defined.

Lemma built_function_apple_never_null_witness :
  let r := built_function_apple nat sample_add sample_encode false "f"
             sample_builder w_full in
  fst r = Failed EncodingError /\ global_runtime (snd r) = 4%nat.
Proof.
  destruct (built_function_apple_never_null nat sample_add sample_encode false
              unit "f"%string sample_builder w_full) as (_ & _ & Hfail & _).
  cbv zeta. split.
  - apply Hfail; [reflexivity|]. intros H. vm_compute in H. discriminate H.
  - reflexivity.
Defined.
